(** * PyGoRP AI service ([ai-service/main.py]): a shallow embedding

    The service is a FastAPI application whose handlers dispatch on a string
    selector to three mock text analyses, one canned image analysis and one
    canned prediction.  This file embeds the handlers and the analyses as
    Rocq functions and proves the properties the specification states about
    them.

    Conventions of the embedding.
    - A Python [str] is a [string]; every [ascii] stands for one code point
      below 256, so [str.lower] and [str.split] are the Latin-1 restrictions
      of the Unicode ones.
    - A Python [int] is a [Z].
    - A Python [float] is an element of a type carrying the operations of the
      class [PyFloat]; the instance [binary64] is IEEE 754 double precision
      (what CPython computes with), the instance [exactQ] is the field of
      rationals, in which no operation rounds.
    - A raised exception is the [Raise] branch of the error monad [res].
    - [datetime.utcnow()] reads a clock held in an explicit [World];
      [asyncio.sleep] only lets time pass and is left out. *)

From Stdlib Require Import ZArith QArith Qabs Qpower Qfield Lqa List Bool Lia.
From Stdlib Require Import Permutation Sorted.
From Stdlib Require Import Strings.Ascii Strings.String Numbers.DecimalString.
From Stdlib Require Import Floats.
Import ListNotations.

Local Open Scope string_scope.
Local Open Scope Z_scope.

(* Decimal float literals stand for the nearest double. *)
Local Set Warnings "-inexact-float".

(** ** Python strings *)

Module PyStr.

(** [str.isspace] on one code point below 256: TAB, LF, VT, FF, CR, the four
    separators FS, GS, RS, US, SPACE, NEL and NBSP. *)
Definition isspace (c : ascii) : bool :=
  let n := N_of_ascii c in
  (((9 <=? n) && (n <=? 13)) || ((28 <=? n) && (n <=? 32))
   || (n =? 133) || (n =? 160))%N.

(** [str.lower] on one code point below 256: A-Z, and the Latin-1 capitals
    U+00C0..U+00DE except the multiplication sign U+00D7, move up by 32. *)
Definition lower_char (c : ascii) : ascii :=
  let n := N_of_ascii c in
  if (((65 <=? n) && (n <=? 90))
      || ((192 <=? n) && (n <=? 222) && negb (n =? 215)))%N
  then ascii_of_N (n + 32) else c.

(** [s.lower()] *)
Fixpoint lower (s : string) : string :=
  match s with
  | EmptyString => EmptyString
  | String c s' => String (lower_char c) (lower s')
  end.

(** [len(s)] *)
Definition len (s : string) : Z := Z.of_nat (String.length s).

(** The word being scanned, closed: nothing when no character was read. *)
Definition flush (cur : string) : list string :=
  match cur with
  | EmptyString => []
  | _ => [cur]
  end.

(** The scan of [s.split()]: [cur] holds the characters of the word being
    read; a whitespace character closes it, any other extends it. *)
Fixpoint split_from (cur s : string) : list string :=
  match s with
  | EmptyString => flush cur
  | String c s' =>
      if isspace c then (flush cur ++ split_from EmptyString s')%list
      else split_from (cur ++ String c EmptyString) s'
  end.

(** [s.split()]: the maximal runs of non-whitespace characters. *)
Definition split (s : string) : list string := split_from EmptyString s.

(** [sep.join(ws)] *)
Fixpoint join (sep : string) (ws : list string) : string :=
  match ws with
  | [] => EmptyString
  | [w] => w
  | w :: ws' => w ++ sep ++ join sep ws'
  end.

(** [w in s] for strings: [w] is a contiguous substring of [s]. *)
Fixpoint contains (w s : string) : bool :=
  if String.prefix w s then true
  else match s with
       | EmptyString => false
       | String _ s' => contains w s'
       end.

(** [l[:n]]: the first [n] items, or all but the last [-n] when [n < 0]. *)
Definition slice_to {A : Type} (l : list A) (n : Z) : list A :=
  if 0 <=? n then firstn (Z.to_nat n) l
  else firstn (Z.to_nat (Z.of_nat (List.length l) + n)) l.

(** [str(n)] for an [int]. *)
Definition str_of_int (n : Z) : string := NilZero.string_of_int (Z.to_int n).

End PyStr.

(** ** Python floats *)

(** The operations the service applies to floats.  [of_int] is [float(n)],
    [lit q] the value of the decimal literal that denotes the rational [q],
    [ltb] the comparison [<]. *)
Class PyFloat (F : Type) : Type := {
  of_int : Z -> F;
  lit : Q -> F;
  fadd : F -> F -> F;
  fsub : F -> F -> F;
  fmul : F -> F -> F;
  fdiv : F -> F -> F;
  fltb : F -> F -> bool
}.

(** [float(n)] in double precision (round to nearest even), for
    [|n| < 2^63]. *)
Definition float_of_Z (n : Z) : float :=
  if n <? 0 then PrimFloat.opp (PrimFloat.of_uint63 (Uint63.of_Z (- n)))
  else PrimFloat.of_uint63 (Uint63.of_Z n).

(** IEEE 754 binary64.  A decimal literal is the double nearest to the
    rational it denotes, which the correctly rounded quotient of its
    numerator and denominator yields when both are below [2^53]. *)
#[export] Instance binary64 : PyFloat float := {
  of_int := float_of_Z;
  lit q := PrimFloat.div (float_of_Z (Qnum q)) (float_of_Z (Zpos (Qden q)));
  fadd := PrimFloat.add;
  fsub := PrimFloat.sub;
  fmul := PrimFloat.mul;
  fdiv := PrimFloat.div;
  fltb := PrimFloat.ltb
}.

(** Exact arithmetic: the value every float operation rounds. *)
#[export] Instance exactQ : PyFloat Q := {
  of_int := inject_Z;
  lit q := q;
  fadd := Qplus;
  fsub := Qminus;
  fmul := Qmult;
  fdiv := Qdiv;
  fltb x y := negb (Qle_bool y x)
}.

(** ** Exceptions *)

Inductive Exn : Type :=
| HTTPException (status_code : Z) (detail : string)
| ZeroDivisionError.

(** [str(e)]: Starlette renders an [HTTPException] as its status code, a
    colon and its detail; CPython's message for [int / 0] is fixed. *)
Definition str_exn (e : Exn) : string :=
  match e with
  | HTTPException status_code detail =>
      PyStr.str_of_int status_code ++ ": " ++ detail
  | ZeroDivisionError => "division by zero"
  end.

(** A computation that returns a value or raises. *)
Inductive res (A : Type) : Type :=
| Ok (a : A)
| Raise (e : Exn).
Arguments Ok {A} a.
Arguments Raise {A} e.

Definition bind {A B : Type} (m : res A) (k : A -> res B) : res B :=
  match m with
  | Ok a => k a
  | Raise e => Raise e
  end.

Notation "x <- m ;; k" := (bind m (fun x => k))
  (at level 61, m at next level, right associativity).

Section Analyses.

Context {F : Type} `{PyFloat F}.

(** [a / b] on two [int]s: true division, [ZeroDivisionError] when [b = 0].
    CPython rounds the exact quotient once; that is the quotient of the two
    conversions as long as both operands convert exactly (below [2^53] in
    double precision), which word counts do. *)
Definition true_div (a b : Z) : res F :=
  if b =? 0 then Raise ZeroDivisionError
  else Ok (fdiv (of_int a) (of_int b)).

(** [min(a, b)] on floats: Python keeps the first argument unless the second
    is strictly smaller. *)
Definition fmin (a b : F) : F := if fltb b a then b else a.

(** ** Results of the mock analyses *)

Record Scores : Type := {
  positive : F;
  negative : F;
  neutral : F
}.

Record SentimentResult : Type := {
  sentiment : string;
  sentiment_confidence : F;
  scores : Scores
}.

(** [frequencies] is a [dict], which keeps insertion order: an association
    list. *)
Record KeywordsResult : Type := {
  keywords : list string;
  frequencies : list (string * Z)
}.

Record SummaryResult : Type := {
  summary : string;
  original_length : Z;
  summary_length : Z;
  compression_ratio : F
}.

(** ** The mock analyses *)

Definition positive_words : list string :=
  ["good"; "great"; "excellent"; "amazing"; "wonderful"; "love"].

Definition negative_words : list string :=
  ["bad"; "terrible"; "awful"; "hate"; "worst"; "poor"].

(** [sum(1 for word in words if word in text_lower)] *)
Definition count_present (words : list string) (text_lower : string) : Z :=
  fold_right Z.add 0
    (map (fun _ => 1) (filter (fun word => PyStr.contains word text_lower) words)).

Definition analyze_sentiment (text : string) : res SentimentResult :=
  let text_lower := PyStr.lower text in
  let positive_count := count_present positive_words text_lower in
  let negative_count := count_present negative_words text_lower in
  let '(sentiment, confidence) :=
    if positive_count >? negative_count then
      ("positive",
       fmin (lit (9 # 10)) (fadd (lit (5 # 10)) (fmul (of_int positive_count) (lit (1 # 10)))))
    else if negative_count >? positive_count then
      ("negative",
       fmin (lit (9 # 10)) (fadd (lit (5 # 10)) (fmul (of_int negative_count) (lit (1 # 10)))))
    else ("neutral", lit (6 # 10)) in
  let words := Z.of_nat (List.length (PyStr.split text)) in
  pos <- true_div positive_count (Z.max words 1) ;;
  neg <- true_div negative_count (Z.max words 1) ;;
  rest <- true_div (positive_count + negative_count) (Z.max words 1) ;;
  Ok {| sentiment := sentiment;
        sentiment_confidence := confidence;
        scores := {| positive := pos;
                     negative := neg;
                     neutral := fsub (of_int 1) rest |} |}.

(** [word_freq.get(word, default)] *)
Fixpoint dict_get (d : list (string * Z)) (key : string) (default : Z) : Z :=
  match d with
  | [] => default
  | (k, v) :: d' => if String.eqb k key then v else dict_get d' key default
  end.

(** [word_freq[word] = v]: a known key keeps its place, a new key goes last. *)
Fixpoint dict_set (d : list (string * Z)) (key : string) (v : Z)
  : list (string * Z) :=
  match d with
  | [] => [(key, v)]
  | (k, v') :: d' =>
      if String.eqb k key then (k, v) :: d' else (k, v') :: dict_set d' key v
  end.

(** The body of the counting loop, for one [word]. *)
Definition count_word (word_freq : list (string * Z)) (word : string)
  : list (string * Z) :=
  if PyStr.len word >? 3
  then dict_set word_freq word (dict_get word_freq word 0 + 1)
  else word_freq.

(** One insertion of the stable sort by decreasing frequency: [x], which
    comes before every item of [l] in the input, goes in front of the first
    item whose frequency is not larger. *)
Fixpoint insert_desc (x : string * Z) (l : list (string * Z))
  : list (string * Z) :=
  match l with
  | [] => [x]
  | y :: l' => if snd x <? snd y then y :: insert_desc x l' else x :: y :: l'
  end.

(** [sorted(items, key=lambda x: x[1], reverse=True)]: Python's sort is
    stable, also under [reverse=True]. *)
Fixpoint sorted_desc (items : list (string * Z)) : list (string * Z) :=
  match items with
  | [] => []
  | x :: items' => insert_desc x (sorted_desc items')
  end.

Definition extract_keywords (text : string) (max_keywords : Z)
  : res KeywordsResult :=
  let words := PyStr.split (PyStr.lower text) in
  let word_freq := fold_left count_word words [] in
  let keywords := PyStr.slice_to (sorted_desc word_freq) max_keywords in
  Ok {| keywords := map fst keywords;
        frequencies := keywords |}.

Definition generate_summary (text : string) (max_length : Z)
  : res SummaryResult :=
  let words := PyStr.split text in
  let summary :=
    if Z.of_nat (List.length words) <=? max_length then text
    else PyStr.join " " (PyStr.slice_to words max_length) ++ "..." in
  ratio <- true_div (Z.of_nat (List.length (PyStr.split summary)))
                    (Z.of_nat (List.length words)) ;;
  Ok {| summary := summary;
        original_length := Z.of_nat (List.length words);
        summary_length := Z.of_nat (List.length (PyStr.split summary));
        compression_ratio := ratio |}.

End Analyses.

Arguments Scores F : clear implicits.
Arguments SentimentResult F : clear implicits.
Arguments SummaryResult F : clear implicits.

(** ** Requests and responses *)

(** A JSON value, for the maps a request carries ([Dict[str, Any]]). *)
#[warnings="-register-all"]
Inductive Any : Type :=
| ANone
| ABool (b : bool)
| ANum (q : Q)
| AStr (s : string)
| AList (l : list Any)
| ADict (d : list (string * Any)).

Record TextAnalysisRequest : Type := {
  text : string;
  text_analysis_type : string;
  options : option (list (string * Any))
}.

Record ImageAnalysisRequest : Type := {
  image_url : option string;
  image_data : option string;
  image_analysis_type : string
}.

Record MLModelRequest : Type := {
  model_name : string;
  input_data : list (string * Any);
  parameters : option (list (string * Any))
}.

Section Service.

Context {F : Type} `{PyFloat F}.

Record ImageResult : Type := {
  predictions : list (string * F);
  dominant_color : string;
  image_quality : string
}.

Record RegressionResult : Type := {
  regression_prediction : F;
  feature_importance : list (string * F)
}.

Record ClassificationResult : Type := {
  classification_prediction : string;
  probabilities : list (string * F)
}.

(** The [result] map of a response, by the handler branch that built it. *)
Inductive Result : Type :=
| RSentiment (r : SentimentResult F)
| RKeywords (r : KeywordsResult)
| RSummary (r : SummaryResult F)
| RImage (r : ImageResult)
| RRegression (r : RegressionResult)
| RClassification (r : ClassificationResult).

(** [result.get("confidence")]: only the sentiment map has the key. *)
Definition get_confidence (result : Result) : option F :=
  match result with
  | RSentiment r => Some (sentiment_confidence r)
  | _ => None
  end.

(** [processing_time] is kept as the difference of two clock readings, in
    microseconds. *)
Record AnalysisResponse : Type := {
  request_id : string;
  status : string;
  result : option Result;
  confidence : option F;
  processing_time : option Z;
  error : option string
}.

(** ** The world a handler runs in *)

(** [clock n] is what the [n]-th call of [datetime.utcnow()] returns, in
    microseconds; [logged] collects the lines given to [logger.error];
    [stamp t] is the text of [d.timestamp()] for a reading [t]: the naive
    datetime [d] is taken as local time, turned into a double number of
    seconds and printed, so [stamp] depends on the time zone of the process
    and may give one text for two readings. *)
Record World : Type := {
  clock : nat -> Z;
  ticks : nat;
  logged : list string;
  stamp : Z -> string
}.

Definition utcnow (w : World) : Z * World :=
  (clock w (ticks w),
   {| clock := clock w; ticks := S (ticks w); logged := logged w;
      stamp := stamp w |}).

Definition logger_error (line : string) (w : World) : World :=
  {| clock := clock w; ticks := ticks w; logged := (logged w ++ [line])%list;
     stamp := stamp w |}.

(** The [return] of a [try] block that reached its end. *)
Definition completed (request_id : string) (start_time : Z)
    (result : Result) (confidence : option F) (w : World)
  : AnalysisResponse * World :=
  let '(now, w) := utcnow w in
  ({| request_id := request_id;
      status := "completed";
      result := Some result;
      confidence := confidence;
      processing_time := Some (now - start_time);
      error := None |}, w).

(** The [except Exception as e] block. *)
Definition failed (what : string) (request_id : string) (e : Exn)
    (w : World) : AnalysisResponse * World :=
  let w := logger_error ("Error processing " ++ what ++ ": " ++ str_exn e) w in
  ({| request_id := request_id;
      status := "failed";
      result := None;
      confidence := None;
      processing_time := None;
      error := Some (str_exn e) |}, w).

(** ** The endpoints *)

(** [POST /api/v1/analyze/text] *)
Definition analyze_text (request : TextAnalysisRequest) (w : World)
  : AnalysisResponse * World :=
  let '(now, w) := utcnow w in
  let request_id := "text_" ++ stamp w now in
  let '(start_time, w) := utcnow w in
  let body : res Result :=
    if (text_analysis_type request =? "sentiment")%string then
      r <- analyze_sentiment (text request) ;; Ok (RSentiment r)
    else if (text_analysis_type request =? "keywords")%string then
      r <- extract_keywords (text request) 5 ;; Ok (RKeywords r)
    else if (text_analysis_type request =? "summary")%string then
      r <- generate_summary (text request) 100 ;; Ok (RSummary r)
    else
      Raise (HTTPException 400
               ("Unsupported analysis type: " ++ text_analysis_type request)) in
  match body with
  | Ok result => completed request_id start_time result (get_confidence result) w
  | Raise e => failed "text analysis" request_id e w
  end.

(** [POST /api/v1/analyze/image] *)
Definition analyze_image (request : ImageAnalysisRequest) (w : World)
  : AnalysisResponse * World :=
  let '(now, w) := utcnow w in
  let request_id := "image_" ++ stamp w now in
  let '(start_time, w) := utcnow w in
  let body : res Result :=
    if (image_analysis_type request =? "classification")%string then
      Ok (RImage
            {| predictions := [("cat", lit (85 # 100));
                               ("animal", lit (92 # 100));
                               ("pet", lit (78 # 100))];
               dominant_color := "#8B4513";
               image_quality := "high" |})
    else
      Raise (HTTPException 400
               ("Unsupported analysis type: " ++ image_analysis_type request)) in
  match body with
  | Ok result => completed request_id start_time result (Some (lit (85 # 100))) w
  | Raise e => failed "image analysis" request_id e w
  end.

(** [POST /api/v1/ml/predict] *)
Definition ml_prediction (request : MLModelRequest) (w : World)
  : AnalysisResponse * World :=
  let '(now, w) := utcnow w in
  let request_id := "ml_" ++ stamp w now in
  let '(start_time, w) := utcnow w in
  let body : res Result :=
    if (model_name request =? "regression")%string then
      Ok (RRegression
            {| regression_prediction := lit (425 # 10);
               feature_importance := [("feature1", lit (3 # 10));
                                      ("feature2", lit (25 # 100));
                                      ("feature3", lit (45 # 100))] |})
    else if (model_name request =? "classification")%string then
      Ok (RClassification
            {| classification_prediction := "class_A";
               probabilities := [("class_A", lit (7 # 10));
                                 ("class_B", lit (2 # 10));
                                 ("class_C", lit (1 # 10))] |})
    else
      Raise (HTTPException 400 ("Unknown model: " ++ model_name request)) in
  match body with
  | Ok result => completed request_id start_time result (Some (lit (8 # 10))) w
  | Raise e => failed "ML prediction" request_id e w
  end.

Record ModelDescriptor : Type := {
  name : string;
  type : string;
  description : string
}.

(** [GET /api/v1/models] *)
Definition list_models : list ModelDescriptor :=
  [ {| name := "sentiment_analyzer";
       type := "text_analysis";
       description := "Analyzes sentiment in text" |};
    {| name := "keyword_extractor";
       type := "text_analysis";
       description := "Extracts keywords from text" |};
    {| name := "image_classifier";
       type := "computer_vision";
       description := "Classifies images" |};
    {| name := "regression_model";
       type := "regression";
       description := "Predicts continuous values" |};
    {| name := "classification_model";
       type := "classification";
       description := "Predicts categorical values" |} ].

Record Health : Type := {
  health_status : string;
  service : string;
  timestamp : Z
}.

(** [GET /health] *)
Definition health_check (w : World) : Health * World :=
  let '(now, w) := utcnow w in
  ({| health_status := "healthy";
      service := "pygorp-ai-service";
      timestamp := now |}, w).

(** ** The service: one reply per request, in arrival order *)

Inductive Request : Type :=
| GetHealth
| PostAnalyzeText (request : TextAnalysisRequest)
| PostAnalyzeImage (request : ImageAnalysisRequest)
| PostPredict (request : MLModelRequest)
| GetModels.

Inductive Reply : Type :=
| HealthReply (h : Health)
| AnalysisReply (r : AnalysisResponse)
| ModelsReply (models : list ModelDescriptor).

Definition handle (request : Request) (w : World) : Reply * World :=
  match request with
  | GetHealth => let '(h, w) := health_check w in (HealthReply h, w)
  | PostAnalyzeText r => let '(a, w) := analyze_text r w in (AnalysisReply a, w)
  | PostAnalyzeImage r => let '(a, w) := analyze_image r w in (AnalysisReply a, w)
  | PostPredict r => let '(a, w) := ml_prediction r w in (AnalysisReply a, w)
  | GetModels => (ModelsReply list_models, w)
  end.

Fixpoint serve (requests : list Request) (w : World) : list Reply * World :=
  match requests with
  | [] => ([], w)
  | request :: requests' =>
      let '(reply, w) := handle request w in
      let '(replies, w) := serve requests' w in
      (reply :: replies, w)
  end.

End Service.

Arguments Result F : clear implicits.
Arguments AnalysisResponse F : clear implicits.
Arguments Reply F : clear implicits.
Arguments ImageResult F : clear implicits.
Arguments RegressionResult F : clear implicits.
Arguments ClassificationResult F : clear implicits.

(** ** Notions the statements use *)

Section Notions.

Import PyStr.

Context {F : Type} `{PyFloat F}.

(** [w] occurs in [text] without regard to case: some substring of [text]
    lowers to [w]. *)
Definition occurs_ci (w text : string) : Prop :=
  exists l s r, text = (l ++ s ++ r)%string /\ lower s = w.

(** The letters, capital above small. *)
Definition capitals : string := "ABCDEFGHIJKLMNOPQRSTUVWXYZ".

Definition smalls : string := "abcdefghijklmnopqrstuvwxyz".

Definition letter_pairs : list (ascii * ascii) :=
  combine (list_ascii_of_string capitals) (list_ascii_of_string smalls).

(** [a] is the capital of the small letter [b]. *)
Definition capital_of (a b : ascii) : bool :=
  existsb (fun ul => Ascii.eqb a (fst ul) && Ascii.eqb b (snd ul)) letter_pairs.

(** [a] and [b] are one character, or one letter in its two cases. *)
Definition same_letter (a b : ascii) : bool :=
  Ascii.eqb a b || capital_of a b || capital_of b a.

(** [s] reads as [w] when the case of letters is ignored. *)
Fixpoint same_text (s w : string) : bool :=
  match s, w with
  | EmptyString, EmptyString => true
  | String a s', String b w' => same_letter a b && same_text s' w'
  | _, _ => false
  end.

(** [w] occurs in [text] when the case of letters is ignored: some
    substring of [text] reads as [w]. *)
Definition occurs_ignoring_case (w text : string) : Prop :=
  exists l s r, text = (l ++ s ++ r)%string /\ same_text s w = true.

(** [w] is written in small letters only. *)
Fixpoint small_word (w : string) : bool :=
  match w with
  | EmptyString => true
  | String c w' =>
      existsb (Ascii.eqb c) (list_ascii_of_string smalls) && small_word w'
  end.

(** No character of [s] is whitespace. *)
Fixpoint no_space (s : string) : bool :=
  match s with
  | EmptyString => true
  | String c s' => negb (isspace c) && no_space s'
  end.

(** Every character of [s] is whitespace (so also the empty string). *)
Fixpoint all_space (s : string) : bool :=
  match s with
  | EmptyString => true
  | String c s' => isspace c && all_space s'
  end.

(** A word: at least one character, none of them whitespace. *)
Definition is_word (w : string) : Prop := w <> "" /\ no_space w = true.

(** The position at which [w] is first seen in [l] (the length of [l] when
    it is not there). *)
Fixpoint rank (l : list string) (w : string) : nat :=
  match l with
  | [] => O
  | x :: l' => if (x =? w)%string then O else S (rank l' w)
  end.

(** What the counting loop maintains, after the words [l]: the keys are the
    words of [l] longer than 3 characters, in the order they were first
    seen, each with the number of times it was seen. *)
Definition counted (l : list string) (d : list (string * Z)) : Prop :=
  StronglySorted (fun a b => (rank l a < rank l b)%nat) (map fst d)
  /\ (forall w, In w (map fst d) <-> In w l /\ (len w >? 3) = true)
  /\ (forall w f, In (w, f) d -> f = Z.of_nat (count_occ string_dec l w)).

(** The order of the result: a larger frequency first, and among equal
    frequencies the word first seen earlier in [l]. *)
Definition by_freq_then_rank (l : list string) (a b : string * Z) : Prop :=
  snd b < snd a
  \/ (snd a = snd b /\ (rank l (fst a) < rank l (fst b))%nat).

(** The envelope of a request that raised [e]. *)
Definition failed_envelope (kind : string) (w : World) (e : Exn)
  : AnalysisResponse F :=
  {| request_id := kind ++ "_" ++ stamp w (clock w (ticks w));
     status := "failed";
     result := None;
     confidence := None;
     processing_time := None;
     error := Some (str_exn e) |}.

(** An envelope as the handlers build it: completed with a result and a
    processing time and no error, or failed with an error and nothing else. *)
Definition well_formed (a : AnalysisResponse F) : Prop :=
  (status a = "completed" /\ result a <> None
   /\ processing_time a <> None /\ error a = None)
  \/ (status a = "failed" /\ result a = None /\ confidence a = None
      /\ processing_time a = None /\ error a <> None).

(** The replies that are failed envelopes. *)
Definition is_failed (reply : Reply F) : bool :=
  match reply with
  | AnalysisReply a => (status a =? "failed")%string
  | _ => false
  end.

End Notions.

(** ** The value of a double *)

(** Powers of two, as rationals. *)
Definition pow2 (e : Z) : Q := (2 ^ e)%Q.

(** [mrs] locates [y]: its mantissa is the integer part of [y], its round
    and sticky bits tell where the rest lies with respect to one half. *)
Definition inb (y : Q) (mrs : shr_record) : Prop :=
  match shr_r mrs, shr_s mrs with
  | false, false => (y == inject_Z (shr_m mrs))%Q
  | false, true => (inject_Z (shr_m mrs) < y < inject_Z (shr_m mrs) + (1 # 2))%Q
  | true, false => (y == inject_Z (shr_m mrs) + (1 # 2))%Q
  | true, true => (inject_Z (shr_m mrs) + (1 # 2) < y < inject_Z (shr_m mrs) + 1)%Q
  end.

(** The rational a finite float stands for (0 for the others). *)
Definition SF2Q (x : spec_float) : Q :=
  match x with
  | S754_finite s m e => (inject_Z (cond_Zopp s (Zpos m)) * pow2 e)%Q
  | _ => 0%Q
  end.

(** Neither an infinity nor a NaN. *)
Definition SF_finite (x : spec_float) : bool :=
  match x with
  | S754_finite _ _ _ | S754_zero _ => true
  | _ => false
  end.

(** The rational value of a double, and whether it has one. *)
Definition B2Q (x : float) : Q := SF2Q (Prim2SF x).

Definition is_finite (x : float) : bool := SF_finite (Prim2SF x).

(** * Properties *)

(** ** Strings *)

Section StringFacts.

Import PyStr.

Lemma append_empty_r (s : string) : (s ++ "")%string = s.
Proof. induction s as [|c s IH]; simpl; [reflexivity | now rewrite IH]. Qed.

Lemma append_assoc (a b c : string) :
  ((a ++ b) ++ c)%string = (a ++ b ++ c)%string.
Proof. induction a as [|x a IH]; simpl; [reflexivity | now rewrite IH]. Qed.

Lemma append_is_empty (a b : string) :
  (a ++ b)%string = "" -> a = "" /\ b = "".
Proof. destruct a; simpl; [auto | discriminate]. Qed.

Lemma prefix_iff (w s : string) :
  String.prefix w s = true <-> exists r, s = (w ++ r)%string.
Proof.
  revert s; induction w as [|a w IH]; intros s.
  - destruct s; simpl; split; eauto.
  - destruct s as [|b s]; simpl.
    + split; [discriminate | intros [r Hr]; discriminate].
    + destruct (ascii_dec a b) as [->|Hab].
      * split.
        -- intros Hp. apply IH in Hp as [r ->]. now exists r.
        -- intros [r Hr]. apply IH. exists r. congruence.
      * split; [discriminate | intros [r Hr]; congruence].
Qed.

(** [w in s] holds exactly when [s] is [w] with something around it. *)
Lemma contains_iff (w s : string) :
  contains w s = true <-> exists l r, s = (l ++ w ++ r)%string.
Proof.
  induction s as [|c s IH].
  - cbn [contains]. destruct (String.prefix w "") eqn:Hp.
    + apply prefix_iff in Hp as [r Hr]. split; [intros _ | reflexivity].
      exists "", r. exact Hr.
    + split; [discriminate | intros (l & r & Hlr)].
      symmetry in Hlr. apply append_is_empty in Hlr as [-> Hwr].
      apply append_is_empty in Hwr as [-> ->]. discriminate.
  - cbn [contains]. destruct (String.prefix w (String c s)) eqn:Hp.
    + apply prefix_iff in Hp as [r Hr]. split; [intros _ | reflexivity].
      exists "", r. exact Hr.
    + rewrite IH. split.
      * intros (l & r & ->). now exists (String c l), r.
      * intros (l & r & Hlr). destruct l as [|c' l].
        -- simpl in Hlr.
           assert (String.prefix w (String c s) = true) as Hp'
             by (apply prefix_iff; now exists r).
           congruence.
        -- simpl in Hlr. injection Hlr as _ ->. now exists l, r.
Qed.

Lemma lower_append (a b : string) :
  lower (a ++ b) = (lower a ++ lower b)%string.
Proof. induction a as [|c a IH]; simpl; [reflexivity | now rewrite IH]. Qed.

(** A split of [lower t] comes from a split of [t]. *)
Lemma lower_append_inv (a b t : string) :
  lower t = (a ++ b)%string ->
  exists t1 t2, t = (t1 ++ t2)%string /\ lower t1 = a /\ lower t2 = b.
Proof.
  revert t; induction a as [|c a IH]; intros t Ht; simpl in Ht.
  - now exists "", t.
  - destruct t as [|d t]; [discriminate|]. simpl in Ht.
    injection Ht as Hc Ht. apply IH in Ht as (t1 & t2 & -> & <- & <-).
    exists (String d t1), t2. simpl. now rewrite Hc.
Qed.

Lemma contains_lower_iff (w text : string) :
  contains w (lower text) = true <-> occurs_ci w text.
Proof.
  rewrite contains_iff. split.
  - intros (l & r & Hlr).
    apply lower_append_inv in Hlr as (t1 & t2 & -> & _ & Ht2).
    apply lower_append_inv in Ht2 as (s & t3 & -> & Hs & _).
    now exists t1, s, t3.
  - intros (l & s & r & -> & <-).
    exists (lower l), (lower r). now rewrite !lower_append.
Qed.

(** Lowering a character gives the small letter [b] exactly when the
    character is [b] or its capital. *)
Lemma lower_char_small (a b : ascii) :
  In b (list_ascii_of_string smalls) ->
  Ascii.eqb (lower_char a) b = same_letter a b.
Proof.
  assert (forallb (fun b => Bool.eqb (Ascii.eqb (lower_char a) b) (same_letter a b))
            (list_ascii_of_string smalls) = true) as Hall
    by (destruct a as [[] [] [] [] [] [] [] []]; vm_compute; reflexivity).
  intros Hb. rewrite forallb_forall in Hall.
  now apply Bool.eqb_prop, Hall.
Qed.

Lemma lower_small_word (s w : string) :
  small_word w = true -> (lower s = w <-> same_text s w = true).
Proof.
  revert w; induction s as [|a s IH]; intros [|b w] Hw; cbn [lower same_text];
    try (split; discriminate); [tauto|].
  cbn [small_word] in Hw. apply andb_prop in Hw as [Hb Hw].
  apply existsb_exists in Hb as (b' & Hin & Hb'). apply Ascii.eqb_eq in Hb'.
  subst b'. rewrite <- (lower_char_small a b Hin), andb_true_iff, <- (IH w Hw).
  rewrite Ascii.eqb_eq. split; [intros [= ? ?] | intros [? ?]]; subst; auto.
Qed.

(** For a word in small letters, [w in text.lower()] holds exactly when [w]
    occurs in the text with the case of letters ignored. *)
Lemma contains_lower_ignoring_case (w text : string) :
  small_word w = true ->
  (contains w (lower text) = true <-> occurs_ignoring_case w text).
Proof.
  intros Hw. rewrite contains_lower_iff. unfold occurs_ci, occurs_ignoring_case.
  split; intros (l & s & r & Ht & Hs); exists l, s, r; split; auto;
    now apply (lower_small_word s w Hw).
Qed.

End StringFacts.

(** ** Counting dictionary words *)

Section CountFacts.

Import PyStr.

(** The sum of ones is the number of words that passed the test. *)
Lemma count_present_length (words : list string) (text_lower : string) :
  count_present words text_lower
  = Z.of_nat (List.length (filter (fun w => contains w text_lower) words)).
Proof.
  unfold count_present.
  induction (filter (fun w => contains w text_lower) words) as [|w l IH].
  - reflexivity.
  - cbn [map fold_right List.length]. rewrite IH. lia.
Qed.

Lemma filter_length_le {A : Type} (f : A -> bool) (l : list A) :
  (List.length (filter f l) <= List.length l)%nat.
Proof.
  induction l as [|x l IH]; simpl; [lia|]. destruct (f x); simpl; lia.
Qed.

Lemma count_present_bounds (words : list string) (text_lower : string) :
  0 <= count_present words text_lower <= Z.of_nat (List.length words).
Proof.
  rewrite count_present_length.
  pose proof (filter_length_le (fun w => contains w text_lower) words). lia.
Qed.

(** The dictionary words found in [text]: those that occur in it without
    regard to case, each listed once. *)
Lemma present_words (words : list string) (text : string) :
  NoDup words ->
  exists found,
    (forall w, In w found <-> In w words /\ occurs_ci w text)
    /\ NoDup found
    /\ count_present words (lower text) = Z.of_nat (List.length found).
Proof.
  intros Hnd. exists (filter (fun w => contains w (lower text)) words).
  split; [|split].
  - intros w. rewrite filter_In, contains_lower_iff. reflexivity.
  - now apply NoDup_filter.
  - apply count_present_length.
Qed.

Lemma positive_words_NoDup : NoDup positive_words.
Proof.
  unfold positive_words.
  repeat (constructor; [simpl; intuition discriminate|]). constructor.
Qed.

Lemma negative_words_NoDup : NoDup negative_words.
Proof.
  unfold negative_words.
  repeat (constructor; [simpl; intuition discriminate|]). constructor.
Qed.

Lemma dictionary_in_small_letters (w : string) :
  In w positive_words \/ In w negative_words -> small_word w = true.
Proof.
  unfold positive_words, negative_words. simpl.
  intuition (subst; reflexivity).
Qed.

(** The dictionary words found in [text], for a dictionary in small
    letters: those that occur in it with the case of letters ignored, each
    listed once. *)
Lemma present_small_words (words : list string) (text : string) :
  NoDup words ->
  (forall w, In w words -> small_word w = true) ->
  exists found,
    (forall w, In w found <-> In w words /\ occurs_ignoring_case w text)
    /\ NoDup found
    /\ count_present words (lower text) = Z.of_nat (List.length found).
Proof.
  intros Hnd Hsmall. exists (filter (fun w => contains w (lower text)) words).
  split; [|split].
  - intros w. rewrite filter_In. split; intros [Hin Hc]; (split; [exact Hin|]);
      now apply (contains_lower_ignoring_case w text (Hsmall w Hin)).
  - now apply NoDup_filter.
  - apply count_present_length.
Qed.

End CountFacts.

(** ** Rounding in double precision *)

(** The operations of [PrimFloat] are specified by those of [SpecFloat]
    ([add_spec], [sub_spec], [div_spec], [of_uint63_spec]).  What follows
    derives, from the definitions of [SpecFloat], that on finite doubles of
    moderate size each of them returns a finite double within [2^-53],
    relatively, of the exact result, and then bounds the error of the sum of
    the three scores. *)

(** *** Powers of two and binary digits *)

Lemma pow2_pos (e : Z) : (0 < pow2 e)%Q.
Proof. apply Qpower_0_lt. reflexivity. Qed.

Lemma pow2_add (a b : Z) : (pow2 (a + b) == pow2 a * pow2 b)%Q.
Proof. apply Qpower_plus. discriminate. Qed.

Lemma pow2_succ (a : Z) : (pow2 (a + 1) == 2 * pow2 a)%Q.
Proof. rewrite pow2_add. change (pow2 1) with 2%Q. ring. Qed.

Lemma pow2_le (a b : Z) : a <= b -> (pow2 a <= pow2 b)%Q.
Proof. intros H. apply Qpower_le_compat_l; [assumption | discriminate]. Qed.

Lemma pow2_lt (a b : Z) : a < b -> (pow2 a < pow2 b)%Q.
Proof. intros H. apply Qpower_lt_compat_l; [assumption | reflexivity]. Qed.

Lemma pow2_lt_inv (a b : Z) : (pow2 a < pow2 b)%Q -> a < b.
Proof. intros H. apply (Qpower_lt_compat_l_inv 2); [assumption | reflexivity]. Qed.

Lemma pow2_Z (n : Z) : 0 <= n -> (pow2 n == inject_Z (2 ^ n))%Q.
Proof. intros H. unfold pow2. now rewrite Zpower_Qpower. Qed.

(** The number of binary digits. *)
Lemma digits2_pos_bounds (m : BinNums.positive) :
  2 ^ (Zpos (digits2_pos m) - 1) <= Zpos m < 2 ^ Zpos (digits2_pos m).
Proof.
  induction m as [m IH|m IH|]; cbn [digits2_pos].
  - rewrite Pos2Z.inj_succ. replace (Z.succ (Zpos (digits2_pos m)) - 1)
      with (Z.succ (Zpos (digits2_pos m) - 1)) by lia.
    rewrite !Z.pow_succ_r by lia. lia.
  - rewrite Pos2Z.inj_succ. replace (Z.succ (Zpos (digits2_pos m)) - 1)
      with (Z.succ (Zpos (digits2_pos m) - 1)) by lia.
    rewrite !Z.pow_succ_r by lia. lia.
  - simpl. lia.
Qed.

Lemma digits2_unique (m : BinNums.positive) (d : Z) :
  2 ^ (d - 1) <= Zpos m < 2 ^ d -> Zpos (digits2_pos m) = d.
Proof.
  intros [Hl Hu]. pose proof (digits2_pos_bounds m) as [Hl' Hu'].
  assert (0 < d) as Hd.
  { destruct (Z.lt_trichotomy d 0) as [H|[H|H]]; [|subst; simpl in Hu; lia|lia].
    rewrite Z.pow_neg_r in Hu by lia. lia. }
  destruct (Z.lt_trichotomy (Zpos (digits2_pos m)) d) as [H|[H|H]]; [|assumption|].
  - assert (2 ^ Zpos (digits2_pos m) <= 2 ^ (d - 1)) by (apply Z.pow_le_mono_r; lia). lia.
  - assert (2 ^ d <= 2 ^ (Zpos (digits2_pos m) - 1)) by (apply Z.pow_le_mono_r; lia). lia.
Qed.

(** *** Shifting a mantissa to the right *)

Lemma inject_Z_xO (p : BinNums.positive) : (inject_Z (Zpos p~0) == 2 * inject_Z (Zpos p))%Q.
Proof. change (Zpos p~0) with (2 * Zpos p). now rewrite inject_Z_mult. Qed.

Lemma inject_Z_xI (p : BinNums.positive) : (inject_Z (Zpos p~1) == 2 * inject_Z (Zpos p) + 1)%Q.
Proof. change (Zpos p~1) with (2 * Zpos p + 1). now rewrite inject_Z_plus, inject_Z_mult. Qed.

Lemma shr_1_inb (y : Q) (mrs : shr_record) :
  0 <= shr_m mrs -> inb y mrs ->
  inb (y * (1 # 2)) (shr_1 mrs) /\ 0 <= shr_m (shr_1 mrs).
Proof.
  destruct mrs as [m r s]. cbn [shr_m]. intros Hm Hy.
  destruct m as [|[p|p|]|p]; try lia; destruct r, s; unfold inb in *;
    cbn [shr_1 shr_m shr_r shr_s orb] in *;
    rewrite ?inject_Z_xO, ?inject_Z_xI in Hy;
    change (inject_Z 0) with 0%Q in *; change (inject_Z 1) with 1%Q in *;
    (split; [lra | lia]).
Qed.

Lemma iter_shr_inb (p : BinNums.positive) :
  forall (y : Q) (mrs : shr_record),
    0 <= shr_m mrs -> inb y mrs ->
    inb (y * pow2 (- Zpos p)) (iter_pos shr_1 p mrs)
    /\ 0 <= shr_m (iter_pos shr_1 p mrs).
Proof.
  assert (forall y mrs, inb y mrs -> forall y', (y == y')%Q -> inb y' mrs) as Hext.
  { intros y mrs Hy y' E. unfold inb in *.
    destruct (shr_r mrs), (shr_s mrs); rewrite <- E; exact Hy. }
  induction p as [p IH|p IH|]; intros y mrs Hm Hy; cbn [iter_pos].
  - destruct (shr_1_inb y mrs Hm Hy) as [H1 M1].
    destruct (IH _ _ M1 H1) as [H2 M2]. destruct (IH _ _ M2 H2) as [H3 M3].
    split; [|assumption]. apply (Hext _ _ H3).
    replace (- Zpos p~1) with (- Zpos p + (- Zpos p + -1)) by lia.
    rewrite !pow2_add. change (pow2 (-1)) with (1 # 2)%Q. ring.
  - destruct (IH _ _ Hm Hy) as [H2 M2]. destruct (IH _ _ M2 H2) as [H3 M3].
    split; [|assumption]. apply (Hext _ _ H3).
    replace (- Zpos p~0) with (- Zpos p + - Zpos p) by lia.
    rewrite !pow2_add. ring.
  - destruct (shr_1_inb y mrs Hm Hy) as [H1 M1]. split; [|assumption].
    apply (Hext _ _ H1). change (pow2 (-1)) with (1 # 2)%Q. reflexivity.
Qed.

(** *** Rounding to nearest, ties to even *)

Lemma fexp64 (e : Z) : fexp 53 1024 e = Z.max (e - 53) (-1074).
Proof. reflexivity. Qed.

(** A mantissa of at most 53 digits at an exponent in range is kept as it
    is. *)
Lemma round_aux_exact (sx : bool) (p : BinNums.positive) (ex : Z) :
  Zpos (digits2_pos p) <= 53 -> -1074 <= ex <= 971 ->
  binary_round_aux 53 1024 sx (Zpos p) ex loc_Exact = S754_finite sx p ex.
Proof.
  intros Hd He. unfold binary_round_aux, shr_fexp. cbn [Zdigits2 shr_record_of_loc].
  rewrite fexp64.
  assert (Z.max (Zpos (digits2_pos p) + ex - 53) (-1074) - ex <= 0) as Hk by lia.
  unfold shr at 1.
  destruct (Z.max (Zpos (digits2_pos p) + ex - 53) (-1074) - ex) as [|k|k] eqn:Ek;
    try lia; cbn [shr_m loc_of_shr_record round_nearest_even Zdigits2 shr_record_of_loc];
    rewrite fexp64, Ek; cbn [shr shr_m];
    (assert ((ex <=? 1024 - 53) = true) as -> by (apply Z.leb_le; lia)); reflexivity.
Qed.

Lemma inb_bounds (y : Q) (mrs : shr_record) :
  inb y mrs -> (inject_Z (shr_m mrs) <= y < inject_Z (shr_m mrs) + 1)%Q.
Proof. unfold inb. destruct (shr_r mrs), (shr_s mrs); lra. Qed.

Lemma round_nearest_even_inb (y : Q) (mrs : shr_record) :
  inb y mrs ->
  shr_m mrs <= round_nearest_even (shr_m mrs) (loc_of_shr_record mrs) <= shr_m mrs + 1
  /\ (Qabs (inject_Z (round_nearest_even (shr_m mrs) (loc_of_shr_record mrs)) - y)
      <= 1 # 2)%Q.
Proof.
  destruct mrs as [m r s]. unfold inb. cbn [shr_m shr_r shr_s loc_of_shr_record].
  intros Hy. destruct r, s; cbn [round_nearest_even]; try destruct (Z.even m);
    (split; [lia|]); rewrite ?inject_Z_plus; change (inject_Z 1) with 1%Q;
    apply Qabs_case; lra.
Qed.

(** The first shift of [binary_round_aux] for a mantissa of [d >= 53]
    digits: [d - 53] digits go into the round and sticky bits. *)
Lemma first_shift (p : BinNums.positive) (ex : Z) (lx : location) (y : Q) :
  53 <= Zpos (digits2_pos p) -> -1074 <= ex ->
  inb y (shr_record_of_loc (Zpos p) lx) ->
  exists mrs',
    shr_fexp 53 1024 (Zpos p) ex lx = (mrs', Zpos (digits2_pos p) + ex - 53)
    /\ inb (y * pow2 (53 - Zpos (digits2_pos p))) mrs'
    /\ 0 <= shr_m mrs'.
Proof.
  intros Hd He Hy. unfold shr_fexp. cbn [Zdigits2]. rewrite fexp64.
  set (d := Zpos (digits2_pos p)) in *.
  assert (0 <= shr_m (shr_record_of_loc (Zpos p) lx)) as Hm
    by (destruct lx as [|[]]; cbn; lia).
  assert (Z.max (d + ex - 53) (-1074) - ex = d - 53) as -> by lia.
  unfold shr. destruct (d - 53) as [|k|k] eqn:Ek; try lia.
  - exists (shr_record_of_loc (Zpos p) lx). split; [f_equal; lia|].
    split; [|assumption]. replace (53 - d) with 0 by lia.
    unfold inb in *. destruct (shr_r _), (shr_s _);
      change (pow2 0) with 1%Q; rewrite Qmult_1_r; exact Hy.
  - destruct (iter_shr_inb k y _ Hm Hy) as [Hy' Hm'].
    exists (iter_pos shr_1 k (shr_record_of_loc (Zpos p) lx)).
    split; [f_equal; lia|]. split; [|assumption].
    replace (53 - d) with (- Zpos k) by lia. exact Hy'.
Qed.

(** The second shift: a rounded mantissa between [2^52] and [2^53] is kept,
    or halved when it reached [2^53]. *)
Lemma second_shift (sx : bool) (mr e' : Z) :
  2 ^ 52 <= mr <= 2 ^ 53 -> -1074 <= e' <= 970 ->
  exists m e,
    (let '(mrs'', e'') := shr_fexp 53 1024 mr e' loc_Exact in
     match shr_m mrs'' with
     | Z0 => S754_zero sx
     | Zpos m => if e'' <=? 1024 - 53 then S754_finite sx m e'' else S754_infinity sx
     | Zneg _ => S754_nan
     end) = S754_finite sx m e
    /\ (inject_Z (Zpos m) * pow2 e == inject_Z mr * pow2 e')%Q.
Proof.
  intros Hmr He. destruct mr as [|q|q]; try lia.
  destruct (Z.eq_dec (Zpos q) (2 ^ 53)) as [E|NE].
  - injection E as ->. unfold shr_fexp. cbn [Zdigits2 digits2_pos Pos.succ].
    rewrite fexp64. cbn [shr_record_of_loc].
    replace (Z.max (54 + e' - 53) (-1074) - e') with 1 by lia.
    cbn [shr iter_pos shr_1 shr_m].
    assert ((e' + 1 <=? 1024 - 53) = true) as -> by (apply Z.leb_le; lia).
    eexists _, _. split; [reflexivity|].
    rewrite pow2_succ. change (inject_Z 9007199254740992)
      with (2 * inject_Z 4503599627370496)%Q. ring.
  - assert (Zpos (digits2_pos q) = 53) as Hd by (apply digits2_unique; lia).
    unfold shr_fexp. cbn [Zdigits2]. rewrite fexp64, Hd.
    replace (Z.max (53 + e' - 53) (-1074) - e') with 0 by lia.
    cbn [shr shr_record_of_loc shr_m].
    assert ((e' <=? 1024 - 53) = true) as -> by (apply Z.leb_le; lia).
    eexists _, _. split; reflexivity.
Qed.

Lemma pow2_52 : pow2 52 = inject_Z (2 ^ 52).
Proof. vm_compute. reflexivity. Qed.

Lemma pow2_53 : pow2 53 = inject_Z (2 ^ 53).
Proof. vm_compute. reflexivity. Qed.

(** Rounding a mantissa of at least 53 digits, located with respect to [y]:
    the result is finite and within [2^-53], relatively, of [y * 2^ex]. *)
Lemma round_aux_bound (sx : bool) (p : BinNums.positive) (ex : Z) (lx : location) (y : Q) :
  53 <= Zpos (digits2_pos p) -> -1074 <= ex ->
  Zpos (digits2_pos p) + ex <= 1000 ->
  inb y (shr_record_of_loc (Zpos p) lx) ->
  exists m e,
    binary_round_aux 53 1024 sx (Zpos p) ex lx = S754_finite sx m e
    /\ (Qabs (inject_Z (Zpos m) * pow2 e - y * pow2 ex)
        <= pow2 (-53) * (y * pow2 ex))%Q.
Proof.
  intros Hd He Hmax Hy.
  destruct (first_shift p ex lx y Hd He Hy) as (mrs' & E1 & Hy' & Hm').
  set (d := Zpos (digits2_pos p)) in *.
  set (y' := (y * pow2 (53 - d))%Q) in *.
  set (e' := d + ex - 53) in *.
  (* the shifted value lies between 2^52 and 2^53 *)
  assert (pow2 52 <= y' /\ y' < pow2 53)%Q as [Hlo Hhi].
  { pose proof (digits2_pos_bounds p) as [Dl Du]. fold d in Dl, Du.
    assert (inject_Z (shr_m (shr_record_of_loc (Zpos p) lx)) = inject_Z (Zpos p)) as Em
      by (destruct lx as [|[]]; reflexivity).
    pose proof (inb_bounds _ _ Hy) as [Yl Yu]. rewrite Em in Yl, Yu.
    pose proof (pow2_pos (53 - d)) as HP.
    assert (pow2 (d - 1) <= y)%Q as Y1.
    { rewrite pow2_Z by lia. apply Qle_trans with (inject_Z (Zpos p)); [|exact Yl].
      now rewrite <- Zle_Qle. }
    assert (y < pow2 d)%Q as Y2.
    { rewrite pow2_Z by lia. apply Qlt_le_trans with (inject_Z (Zpos p) + 1)%Q; [exact Yu|].
      change 1%Q with (inject_Z 1). rewrite <- inject_Z_plus, <- Zle_Qle. lia. }
    split.
    - replace 52 with ((d - 1) + (53 - d)) by lia. rewrite pow2_add.
      unfold y'. apply Qmult_le_compat_r; [exact Y1 | now apply Qlt_le_weak].
    - replace 53 with (d + (53 - d)) by lia. rewrite pow2_add.
      unfold y'. apply Qmult_lt_r; assumption. }
  destruct (round_nearest_even_inb y' mrs' Hy') as [Hmr Herr].
  set (mr := round_nearest_even (shr_m mrs') (loc_of_shr_record mrs')) in *.
  pose proof (inb_bounds _ _ Hy') as [Ml Mu].
  assert (2 ^ 52 <= shr_m mrs' < 2 ^ 53) as Hm52.
  { rewrite pow2_52 in Hlo. rewrite pow2_53 in Hhi. split.
    - assert (inject_Z (2 ^ 52) < inject_Z (shr_m mrs' + 1))%Q as H.
      { rewrite inject_Z_plus. change (inject_Z 1) with 1%Q. lra. }
      rewrite <- Zlt_Qlt in H. lia.
    - assert (inject_Z (shr_m mrs') < inject_Z (2 ^ 53))%Q as H by lra.
      now rewrite <- Zlt_Qlt in H. }
  destruct (second_shift sx mr e' ltac:(lia) ltac:(unfold e'; lia)) as (m & e & E2 & Hv).
  exists m, e. split.
  - unfold binary_round_aux. rewrite E1. fold mr. exact E2.
  - rewrite Hv.
    assert (y * pow2 ex == y' * pow2 e')%Q as ->.
    { unfold y', e'. replace ex with ((53 - d) + (d + ex - 53)) at 1 by lia.
      rewrite pow2_add. ring. }
    pose proof (pow2_pos e') as HE.
    assert (inject_Z mr * pow2 e' - y' * pow2 e' == (inject_Z mr - y') * pow2 e')%Q
      as -> by ring.
    rewrite Qabs_Qmult, (Qabs_pos (pow2 e')) by now apply Qlt_le_weak.
    rewrite Qmult_assoc. apply Qmult_le_compat_r; [|now apply Qlt_le_weak].
    apply Qle_trans with (1 # 2)%Q; [exact Herr|].
    rewrite pow2_52 in Hlo. change (pow2 (-53)) with (1 # 9007199254740992)%Q.
    change (inject_Z (2 ^ 52)) with (4503599627370496 # 1)%Q in Hlo. lra.
Qed.

(** *** Rounding a mantissa at an exponent *)

Lemma iter_xO (m d : BinNums.positive) : Zpos (Pos.iter xO m d) = Zpos m * 2 ^ Zpos d.
Proof.
  induction d as [|d IH] using Pos.peano_ind.
  - cbn [Pos.iter]. lia.
  - rewrite Pos.iter_succ, Pos2Z.inj_succ, Z.pow_succ_r by lia.
    change (Zpos (Pos.iter xO m d)~0) with (2 * Zpos (Pos.iter xO m d)). lia.
Qed.

(** [shl_align] keeps the value and lowers the exponent to [ex'] when that is
    smaller. *)
Lemma shl_align_spec (mx : BinNums.positive) (ex ex' : Z) :
  exists mz,
    shl_align mx ex ex' = (mz, Z.min ex ex')
    /\ Zpos mz = Zpos mx * 2 ^ (ex - Z.min ex ex').
Proof.
  unfold shl_align. destruct (ex' - ex) as [|d|d] eqn:E.
  - exists mx. replace (Z.min ex ex') with ex by lia.
    split; [reflexivity|]. rewrite Z.sub_diag. simpl. lia.
  - exists mx. replace (Z.min ex ex') with ex by lia.
    split; [reflexivity|]. rewrite Z.sub_diag. simpl. lia.
  - exists (Pos.iter xO mx d). replace (Z.min ex ex') with ex' by lia.
    split; [reflexivity|]. rewrite iter_xO. f_equal. f_equal. lia.
Qed.

Lemma digits2_shift (mx mz : BinNums.positive) (k : Z) :
  0 <= k -> Zpos mz = Zpos mx * 2 ^ k ->
  Zpos (digits2_pos mz) = Zpos (digits2_pos mx) + k.
Proof.
  intros Hk E. apply digits2_unique. rewrite E.
  pose proof (digits2_pos_bounds mx) as [Hl Hu].
  replace (Zpos (digits2_pos mx) + k - 1) with ((Zpos (digits2_pos mx) - 1) + k) by lia.
  rewrite !Z.pow_add_r by lia. assert (0 < 2 ^ k) by (apply Z.pow_pos_nonneg; lia).
  split; nia.
Qed.

Lemma shift_value (mx mz : BinNums.positive) (ex ez : Z) :
  ez <= ex -> Zpos mz = Zpos mx * 2 ^ (ex - ez) ->
  (inject_Z (Zpos mz) * pow2 ez == inject_Z (Zpos mx) * pow2 ex)%Q.
Proof.
  intros Hle E. rewrite E, inject_Z_mult, <- pow2_Z by lia.
  replace ex with ((ex - ez) + ez) at 2 by lia. rewrite pow2_add. ring.
Qed.

(** Rounding an integer mantissa at an exponent: the result is finite and
    within [2^-53], relatively, of the value, and is the value when the
    mantissa has at most 53 digits. *)
Lemma binary_round_bound (sx : bool) (mx : BinNums.positive) (ex : Z) :
  -1074 <= ex -> Zpos (digits2_pos mx) + ex <= 1000 ->
  exists m e,
    binary_round 53 1024 sx mx ex = S754_finite sx m e
    /\ (Qabs (inject_Z (Zpos m) * pow2 e - inject_Z (Zpos mx) * pow2 ex)
        <= pow2 (-53) * (inject_Z (Zpos mx) * pow2 ex))%Q
    /\ (Zpos (digits2_pos mx) <= 53 ->
        (inject_Z (Zpos m) * pow2 e == inject_Z (Zpos mx) * pow2 ex)%Q).
Proof.
  intros He Hmax. unfold binary_round. rewrite fexp64.
  set (d := Zpos (digits2_pos mx)) in *.
  destruct (shl_align_spec mx ex (Z.max (d + ex - 53) (-1074))) as (mz & Ea & Ez).
  rewrite Ea. set (ez := Z.min ex (Z.max (d + ex - 53) (-1074))) in *.
  assert (ez <= ex) as Hez by (unfold ez; lia).
  pose proof (shift_value mx mz ex ez Hez Ez) as Hv.
  pose proof (digits2_shift mx mz (ex - ez) ltac:(lia) Ez) as Hdz. fold d in Hdz.
  assert (0 < inject_Z (Zpos mx) * pow2 ex)%Q as Hpos.
  { apply Qmult_lt_0_compat; [|apply pow2_pos].
    change 0%Q with (inject_Z 0). now rewrite <- Zlt_Qlt. }
  destruct (Z.le_gt_cases d 53) as [Hd|Hd].
  - rewrite round_aux_exact by (unfold ez in *; lia).
    exists mz, ez. split; [reflexivity|]. split; [|intros _; exact Hv].
    rewrite Hv. setoid_replace (inject_Z (Zpos mx) * pow2 ex - inject_Z (Zpos mx) * pow2 ex)%Q
      with 0%Q by ring.
    change (Qabs 0) with 0%Q. apply Qmult_le_0_compat; [|now apply Qlt_le_weak].
    apply Qlt_le_weak, pow2_pos.
  - assert (ez = ex) as Eez by (unfold ez; lia).
    assert (inb (inject_Z (Zpos mz)) (shr_record_of_loc (Zpos mz) loc_Exact)) as Hinb
      by (unfold inb; cbn; reflexivity).
    destruct (round_aux_bound sx mz ez loc_Exact (inject_Z (Zpos mz))
                ltac:(lia) ltac:(lia) ltac:(lia) Hinb) as (m & e & Er & Hb).
    exists m, e. split; [exact Er|]. split; [|lia].
    rewrite Hv in Hb. exact Hb.
Qed.

(** *** Finite floats and normalisation *)

Lemma valid_finite (s : bool) (m : BinNums.positive) (e : Z) :
  SpecFloat.valid_binary 53 1024 (S754_finite s m e) = true ->
  -1074 <= e <= 971 /\ Zpos (digits2_pos m) <= 53.
Proof.
  unfold SpecFloat.valid_binary, bounded, canonical_mantissa. rewrite fexp64.
  intros H. apply andb_prop in H as [Hc He].
  apply Z.eqb_eq in Hc. apply Z.leb_le in He. lia.
Qed.

Lemma Qabs_cond_Zopp (s : bool) (m : BinNums.positive) (e : Z) :
  (Qabs (inject_Z (cond_Zopp s (Zpos m)) * pow2 e) == inject_Z (Zpos m) * pow2 e)%Q.
Proof.
  pose proof (pow2_pos e) as HE.
  assert (0 < inject_Z (Zpos m))%Q as Hm
    by (change 0%Q with (inject_Z 0); now rewrite <- Zlt_Qlt).
  rewrite Qabs_Qmult, (Qabs_pos (pow2 e)) by now apply Qlt_le_weak.
  destruct s; cbn [cond_Zopp].
  - change (- Zpos m) with (Zneg m). rewrite Qabs_neg.
    + change (Zneg m) with (- Zpos m). rewrite inject_Z_opp. ring.
    + change 0%Q with (inject_Z 0). rewrite <- Zle_Qle. lia.
  - rewrite Qabs_pos by now apply Qlt_le_weak. reflexivity.
Qed.

(** The magnitude of a finite float is fixed by its digits and exponent. *)
Lemma finite_magnitude (s : bool) (m : BinNums.positive) (e : Z) :
  (pow2 (Zpos (digits2_pos m) + e - 1) <= Qabs (SF2Q (S754_finite s m e))
   /\ Qabs (SF2Q (S754_finite s m e)) < pow2 (Zpos (digits2_pos m) + e))%Q.
Proof.
  cbn [SF2Q]. rewrite Qabs_cond_Zopp.
  pose proof (digits2_pos_bounds m) as [Hl Hu]. pose proof (pow2_pos e) as HE.
  set (d := Zpos (digits2_pos m)) in *. split.
  - replace (d + e - 1) with ((d - 1) + e) by lia. rewrite pow2_add, (pow2_Z (d - 1)) by lia.
    apply Qmult_le_compat_r; [now rewrite <- Zle_Qle | now apply Qlt_le_weak].
  - rewrite pow2_add, (pow2_Z d) by lia.
    apply Qmult_lt_r; [assumption | now rewrite <- Zlt_Qlt].
Qed.

Lemma finite_exponent_le (s : bool) (m : BinNums.positive) (e b : Z) :
  (Qabs (SF2Q (S754_finite s m e)) < pow2 b)%Q -> Zpos (digits2_pos m) + e <= b.
Proof.
  intros H. destruct (finite_magnitude s m e) as [Hl _].
  assert (pow2 (Zpos (digits2_pos m) + e - 1) < pow2 b)%Q as H' by lra.
  apply pow2_lt_inv in H'. lia.
Qed.

Lemma finite_exponent_ge (s : bool) (m : BinNums.positive) (e b : Z) :
  (pow2 b <= Qabs (SF2Q (S754_finite s m e)))%Q -> b < Zpos (digits2_pos m) + e.
Proof.
  intros H. destruct (finite_magnitude s m e) as [_ Hu].
  assert (pow2 b < pow2 (Zpos (digits2_pos m) + e))%Q as H' by lra.
  now apply pow2_lt_inv in H'.
Qed.

Lemma Zdigits2_le (M k : Z) : 0 <= k -> Z.abs M < 2 ^ k -> Zdigits2 M <= k.
Proof.
  intros Hk HM. destruct M as [|p|p]; cbn [Zdigits2]; try lia;
    pose proof (digits2_pos_bounds p) as [Hl _]; cbn [Z.abs] in HM;
    destruct (Z.le_gt_cases (Zpos (digits2_pos p)) k) as [|Hgt]; try assumption;
    assert (2 ^ k <= 2 ^ (Zpos (digits2_pos p) - 1)) by (apply Z.pow_le_mono_r; lia); lia.
Qed.

(** Normalising an integer at an exponent. *)
Lemma normalize_bound (M e : Z) :
  -1074 <= e -> Zdigits2 M + e <= 1000 ->
  SF_finite (binary_normalize 53 1024 M e false) = true
  /\ (Qabs (SF2Q (binary_normalize 53 1024 M e false) - inject_Z M * pow2 e)
      <= pow2 (-53) * Qabs (inject_Z M * pow2 e))%Q
  /\ (Zdigits2 M <= 53 ->
      (SF2Q (binary_normalize 53 1024 M e false) == inject_Z M * pow2 e)%Q).
Proof.
  intros He Hmax. destruct M as [|p|p]; cbn [binary_normalize Zdigits2] in *.
  - split; [reflexivity|]. cbn [SF2Q]. change (inject_Z 0) with 0%Q.
    split; [|intros _; ring].
    assert (0 * pow2 e == 0)%Q as -> by ring.
    change (Qabs (0 - 0)) with 0%Q. change (Qabs 0) with 0%Q. lra.
  - destruct (binary_round_bound false p e He Hmax) as (m & e' & Er & Hb & Hx).
    rewrite Er. split; [reflexivity|]. cbn [SF2Q cond_Zopp].
    split; [|exact Hx].
    rewrite (Qabs_cond_Zopp false p e). exact Hb.
  - destruct (binary_round_bound true p e He Hmax) as (m & e' & Er & Hb & Hx).
    rewrite Er. split; [reflexivity|]. cbn [SF2Q cond_Zopp].
    change (Zneg p) with (- Zpos p). change (- Zpos m) with (Zneg m).
    change (Zneg m) with (- Zpos m). rewrite !inject_Z_opp. split.
    + setoid_replace (- inject_Z (Zpos m) * pow2 e' - - inject_Z (Zpos p) * pow2 e)%Q
        with (- (inject_Z (Zpos m) * pow2 e' - inject_Z (Zpos p) * pow2 e))%Q by ring.
      rewrite Qabs_opp.
      setoid_replace (- inject_Z (Zpos p) * pow2 e)%Q
        with (- (inject_Z (Zpos p) * pow2 e))%Q by ring.
      rewrite Qabs_opp. rewrite (Qabs_cond_Zopp false p e). exact Hb.
    + intros Hd.
      setoid_replace (- inject_Z (Zpos m) * pow2 e')%Q
        with (- (inject_Z (Zpos m) * pow2 e'))%Q by ring.
      rewrite (Hx Hd). ring.
Qed.

(** *** Addition and subtraction of finite floats *)

(** A mantissa aligned to a lower exponent: the value is kept. *)
Lemma aligned_value (s : bool) (m : BinNums.positive) (e ez : Z) :
  ez <= e ->
  (inject_Z (cond_Zopp s (Zpos (fst (shl_align m e ez)))) * pow2 ez
   == SF2Q (S754_finite s m e))%Q
  /\ Z.abs (cond_Zopp s (Zpos (fst (shl_align m e ez))))
     < 2 ^ (Zpos (digits2_pos m) + e - ez).
Proof.
  intros Hle. destruct (shl_align_spec m e ez) as (mz & Ea & Ez).
  rewrite Ea. cbn [fst SF2Q]. replace (Z.min e ez) with ez in Ez by lia. split.
  - pose proof (shift_value m mz e ez Hle Ez) as Hv.
    destruct s; cbn [cond_Zopp]; [|exact Hv].
    rewrite !inject_Z_opp.
    setoid_replace (- inject_Z (Zpos mz) * pow2 ez)%Q
      with (- (inject_Z (Zpos mz) * pow2 ez))%Q by ring.
    rewrite Hv. ring.
  - pose proof (digits2_pos_bounds m) as [_ Hu].
    replace (Zpos (digits2_pos m) + e - ez) with (Zpos (digits2_pos m) + (e - ez)) by lia.
    rewrite Z.pow_add_r by lia.
    assert (0 < 2 ^ (e - ez)) by (apply Z.pow_pos_nonneg; lia).
    destruct s; cbn [cond_Zopp Z.abs Z.opp]; nia.
Qed.

Section AddSub.

Variables (sx sy : bool) (mx my : BinNums.positive) (ex ey : Z).
Hypothesis Vx : SpecFloat.valid_binary 53 1024 (S754_finite sx mx ex) = true.
Hypothesis Vy : SpecFloat.valid_binary 53 1024 (S754_finite sy my ey) = true.
Hypothesis Bx : (Qabs (SF2Q (S754_finite sx mx ex)) < pow2 900)%Q.
Hypothesis By : (Qabs (SF2Q (S754_finite sy my ey)) < pow2 900)%Q.

Let ez := Z.min ex ey.
Let Mx := cond_Zopp sx (Zpos (fst (shl_align mx ex ez))).
Let My := cond_Zopp sy (Zpos (fst (shl_align my ey ez))).

Lemma aligned_pair :
  -1074 <= ez <= 899
  /\ (inject_Z Mx * pow2 ez == SF2Q (S754_finite sx mx ex))%Q
  /\ (inject_Z My * pow2 ez == SF2Q (S754_finite sy my ey))%Q
  /\ Z.abs Mx + Z.abs My < 2 ^ (901 - ez).
Proof.
  destruct (valid_finite _ _ _ Vx) as [Hex _].
  destruct (valid_finite _ _ _ Vy) as [Hey _].
  pose proof (finite_exponent_le _ _ _ _ Bx) as Dx.
  pose proof (finite_exponent_le _ _ _ _ By) as Dy.
  destruct (aligned_value sx mx ex ez ltac:(unfold ez; lia)) as [Hvx Hax].
  destruct (aligned_value sy my ey ez ltac:(unfold ez; lia)) as [Hvy Hay].
  split; [unfold ez; lia|]. split; [exact Hvx|]. split; [exact Hvy|].
  fold Mx in Hax. fold My in Hay.
  assert (2 ^ (Zpos (digits2_pos mx) + ex - ez) <= 2 ^ (900 - ez))
    by (apply Z.pow_le_mono_r; unfold ez in *; lia).
  assert (2 ^ (Zpos (digits2_pos my) + ey - ez) <= 2 ^ (900 - ez))
    by (apply Z.pow_le_mono_r; unfold ez in *; lia).
  replace (901 - ez) with (Z.succ (900 - ez)) by lia.
  rewrite Z.pow_succ_r by (unfold ez in *; lia). lia.
Qed.

Lemma SFadd_finite_bound :
  SF_finite (SFadd 53 1024 (S754_finite sx mx ex) (S754_finite sy my ey)) = true
  /\ (Qabs (SF2Q (SFadd 53 1024 (S754_finite sx mx ex) (S754_finite sy my ey))
            - (SF2Q (S754_finite sx mx ex) + SF2Q (S754_finite sy my ey)))
      <= pow2 (-53)
         * Qabs (SF2Q (S754_finite sx mx ex) + SF2Q (S754_finite sy my ey)))%Q.
Proof.
  destruct aligned_pair as (Hez & Hvx & Hvy & Habs).
  cbn [SFadd]. fold ez Mx My.
  assert (Zdigits2 (Mx + My) + ez <= 1000) as Hd.
  { pose proof (Zdigits2_le (Mx + My) (901 - ez)). lia. }
  destruct (normalize_bound (Mx + My) ez (proj1 Hez) Hd) as (Hf & Hb & _).
  split; [exact Hf|].
  rewrite inject_Z_plus, Qmult_plus_distr_l, Hvx, Hvy in Hb. exact Hb.
Qed.

Lemma SFsub_finite_bound :
  SF_finite (SFsub 53 1024 (S754_finite sx mx ex) (S754_finite sy my ey)) = true
  /\ (Qabs (SF2Q (SFsub 53 1024 (S754_finite sx mx ex) (S754_finite sy my ey))
            - (SF2Q (S754_finite sx mx ex) - SF2Q (S754_finite sy my ey)))
      <= pow2 (-53)
         * Qabs (SF2Q (S754_finite sx mx ex) - SF2Q (S754_finite sy my ey)))%Q.
Proof.
  destruct aligned_pair as (Hez & Hvx & Hvy & Habs).
  cbn [SFsub]. fold ez Mx My.
  assert (Zdigits2 (Mx - My) + ez <= 1000) as Hd.
  { pose proof (Zdigits2_le (Mx - My) (901 - ez)). lia. }
  destruct (normalize_bound (Mx - My) ez (proj1 Hez) Hd) as (Hf & Hb & _).
  split; [exact Hf|].
  assert (inject_Z (Mx - My) * pow2 ez
          == SF2Q (S754_finite sx mx ex) - SF2Q (S754_finite sy my ey))%Q as E.
  { unfold Z.sub. rewrite inject_Z_plus, inject_Z_opp, <- Hvx, <- Hvy. ring. }
  rewrite E in Hb. exact Hb.
Qed.

End AddSub.

(** *** Division of finite floats *)

(** The location [SFdiv_core_binary] gives for a remainder is the place of
    the exact quotient. *)
Lemma new_location_inb (a b q r : Z) :
  0 < b -> a = b * q + r -> 0 <= r < b ->
  inb (inject_Z a / inject_Z b) (shr_record_of_loc q (new_location b r)).
Proof.
  intros Hb Ea Hr.
  assert (0 < inject_Z b)%Q as Hb' by (change 0%Q with (inject_Z 0); now rewrite <- Zlt_Qlt).
  assert (inject_Z a / inject_Z b == inject_Z q + inject_Z r / inject_Z b)%Q as E.
  { rewrite Ea, inject_Z_plus, inject_Z_mult. field. lra. }
  assert (forall y mrs, inb y mrs -> forall y', (y == y')%Q -> inb y' mrs) as Hext.
  { intros y mrs Hy y' E'. unfold inb in *.
    destruct (shr_r mrs), (shr_s mrs); rewrite <- E'; exact Hy. }
  apply (Hext (inject_Z q + inject_Z r / inject_Z b)%Q); [|now symmetry].
  set (f := (inject_Z r / inject_Z b)%Q).
  assert (0 <= f)%Q as F0.
  { apply Qle_shift_div_l; [assumption|]. rewrite Qmult_0_l.
    change 0%Q with (inject_Z 0). rewrite <- Zle_Qle. lia. }
  assert (f < 1)%Q as F1.
  { apply Qlt_shift_div_r; [assumption|]. rewrite Qmult_1_l, <- Zlt_Qlt. lia. }
  assert (r <> 0 -> (0 < f)%Q) as Fpos.
  { intros Hn. apply Qlt_shift_div_l; [assumption|]. rewrite Qmult_0_l.
    change 0%Q with (inject_Z 0). rewrite <- Zlt_Qlt. lia. }
  assert (2 * r < b -> (f < 1 # 2)%Q) as Flt.
  { intros Hn. apply Qlt_shift_div_r; [assumption|].
    assert (inject_Z (2 * r) < inject_Z b)%Q as H by now rewrite <- Zlt_Qlt.
    rewrite inject_Z_mult in H. change (inject_Z 2) with 2%Q in H. lra. }
  assert (b < 2 * r -> (1 # 2 < f)%Q) as Fgt.
  { intros Hn. apply Qlt_shift_div_l; [assumption|].
    assert (inject_Z b < inject_Z (2 * r))%Q as H by now rewrite <- Zlt_Qlt.
    rewrite inject_Z_mult in H. change (inject_Z 2) with 2%Q in H. lra. }
  assert (2 * r = b -> (f == 1 # 2)%Q) as Feq.
  { intros Hn. unfold f. rewrite <- Hn, inject_Z_mult. change (inject_Z 2) with 2%Q.
    field. intros Hz. rewrite <- Hn, inject_Z_mult in Hb'.
    change (inject_Z 2) with 2%Q in Hb'. lra. }
  unfold new_location. destruct (Z.even b) eqn:Eb.
  - unfold new_location_even. destruct (Z.eqb_spec r 0) as [->|Hn].
    + unfold inb, f. cbn. change (inject_Z 0) with 0%Q. field. lra.
    + destruct (Z.compare_spec (2 * r) b) as [Hc|Hc|Hc]; unfold inb; cbn.
      * rewrite (Feq Hc). reflexivity.
      * specialize (Flt Hc). specialize (Fpos Hn). lra.
      * specialize (Fgt Hc). lra.
  - unfold new_location_odd. destruct (Z.eqb_spec r 0) as [->|Hn].
    + unfold inb, f. cbn. change (inject_Z 0) with 0%Q. field. lra.
    + assert (2 * r <> b).
      { intros Hc. rewrite <- Hc, Z.even_mul in Eb. discriminate. }
      destruct (Z.compare_spec (2 * r + 1) b) as [Hc|Hc|Hc]; unfold inb; cbn.
      * specialize (Flt ltac:(lia)). specialize (Fpos Hn). lra.
      * specialize (Flt ltac:(lia)). specialize (Fpos Hn). lra.
      * specialize (Fgt ltac:(lia)). lra.
Qed.

Section Div.

Variables (sx sy : bool) (mx my : BinNums.positive) (ex ey : Z).
Hypothesis Vx : SpecFloat.valid_binary 53 1024 (S754_finite sx mx ex) = true.
Hypothesis Vy : SpecFloat.valid_binary 53 1024 (S754_finite sy my ey) = true.
Hypothesis Bx : (pow2 (-400) <= Qabs (SF2Q (S754_finite sx mx ex)) < pow2 400)%Q.
Hypothesis By : (pow2 (-400) <= Qabs (SF2Q (S754_finite sy my ey)) < pow2 400)%Q.

(** The quotient of two finite floats of moderate size is finite and within
    [2^-53], relatively, of the exact quotient. *)
Lemma SFdiv_finite_bound :
  SF_finite (SFdiv 53 1024 (S754_finite sx mx ex) (S754_finite sy my ey)) = true
  /\ (Qabs (SF2Q (SFdiv 53 1024 (S754_finite sx mx ex) (S754_finite sy my ey))
            - SF2Q (S754_finite sx mx ex) / SF2Q (S754_finite sy my ey))
      <= pow2 (-53)
         * Qabs (SF2Q (S754_finite sx mx ex) / SF2Q (S754_finite sy my ey)))%Q.
Proof.
  destruct (valid_finite _ _ _ Vx) as [Hex Hdx].
  destruct (valid_finite _ _ _ Vy) as [Hey Hdy].
  pose proof (finite_exponent_le _ _ _ _ (proj2 Bx)) as Ux.
  pose proof (finite_exponent_ge _ _ _ _ (proj1 Bx)) as Lx.
  pose proof (finite_exponent_le _ _ _ _ (proj2 By)) as Uy.
  pose proof (finite_exponent_ge _ _ _ _ (proj1 By)) as Ly.
  pose proof (digits2_pos_bounds mx) as [Mxl Mxu].
  pose proof (digits2_pos_bounds my) as [Myl Myu].
  set (d1 := Zpos (digits2_pos mx)) in *. set (d2 := Zpos (digits2_pos my)) in *.
  assert (0 < d1 /\ 0 < d2) as [Hd1 Hd2] by (unfold d1, d2; lia).
  cbn [SFdiv]. unfold SFdiv_core_binary. cbn [Zdigits2]. fold d1 d2. rewrite fexp64.
  set (e' := d1 + ex - d2 - ey - 53).
  replace (Z.min (Z.max (d1 + ex - (d2 + ey) - 53) (-1074)) (ex - ey)) with e'
    by (unfold e'; lia).
  set (s := 53 + d2 - d1).
  replace (ex - ey - e') with s by (unfold e', s; lia).
  assert (0 < s) as Hs by (unfold s; lia).
  assert (match s with
          | 0 => Zpos mx
          | Zpos _ => Z.shiftl (Zpos mx) s
          | Zneg _ => 0
          end = Zpos mx * 2 ^ s) as ->.
  { destruct s; try lia. apply Z.shiftl_mul_pow2. lia. }
  set (m' := Zpos mx * 2 ^ s).
  pose proof (Z_div_mod m' (Zpos my) ltac:(lia)) as Hdiv.
  destruct (Z.div_eucl m' (Zpos my)) as [q r]. destruct Hdiv as [Em' Hr].
  (* the integer quotient has 53 or 54 digits *)
  assert (2 ^ 52 <= q < 2 ^ 54) as Hq.
  { assert (2 ^ (d1 - 1) * 2 ^ s <= m' < 2 ^ d1 * 2 ^ s) as Hm'.
    { assert (0 < 2 ^ s) by (apply Z.pow_pos_nonneg; lia). unfold m'. nia. }
    rewrite <- !Z.pow_add_r in Hm' by lia.
    replace (d1 - 1 + s) with (52 + d2) in Hm' by (unfold s; lia).
    replace (d1 + s) with (54 + (d2 - 1)) in Hm' by (unfold s; lia).
    rewrite !Z.pow_add_r in Hm' by lia. split; nia. }
  destruct q as [|qp|qp]; try lia.
  assert (53 <= Zpos (digits2_pos qp) <= 54) as Hdq.
  { pose proof (digits2_pos_bounds qp) as [Ql Qu]. split.
    - destruct (Z.le_gt_cases 53 (Zpos (digits2_pos qp))) as [|Hlt]; [assumption|].
      assert (2 ^ Zpos (digits2_pos qp) <= 2 ^ 52) by (apply Z.pow_le_mono_r; lia). lia.
    - apply (Zdigits2_le (Zpos qp) 54); cbn [Z.abs]; lia. }
  pose proof (new_location_inb m' (Zpos my) (Zpos qp) r ltac:(lia) Em' Hr) as Hinb.
  destruct (round_aux_bound (xorb sx sy) qp e' (new_location (Zpos my) r)
              (inject_Z m' / inject_Z (Zpos my))
              ltac:(lia) ltac:(unfold e'; lia) ltac:(unfold e'; lia) Hinb)
    as (m & e & Er & Hb).
  rewrite Er. split; [reflexivity|].
  (* the exact quotient, without signs *)
  assert (0 < inject_Z (Zpos mx))%Q as Pmx
    by (change 0%Q with (inject_Z 0); now rewrite <- Zlt_Qlt).
  assert (0 < inject_Z (Zpos my))%Q as Pmy
    by (change 0%Q with (inject_Z 0); now rewrite <- Zlt_Qlt).
  pose proof (pow2_pos ex) as Pex. pose proof (pow2_pos ey) as Pey.
  set (A := (inject_Z (Zpos m) * pow2 e)%Q) in *.
  set (B := (inject_Z m' / inject_Z (Zpos my) * pow2 e')%Q) in *.
  assert (B == inject_Z (Zpos mx) * pow2 ex / (inject_Z (Zpos my) * pow2 ey))%Q as EB.
  { unfold B, m'. rewrite inject_Z_mult, <- pow2_Z by lia.
    replace ex with (s + e' + ey) by (unfold s, e'; lia).
    rewrite !pow2_add. field. split; lra. }
  assert (0 <= B)%Q as PB.
  { assert (0 <= inject_Z m')%Q
      by (change 0%Q with (inject_Z 0); rewrite <- Zle_Qle; lia).
    pose proof (pow2_pos e'). unfold B.
    apply Qmult_le_0_compat; [|lra].
    apply Qle_shift_div_l; [exact Pmy | lra]. }
  assert (0 <= pow2 (-53) * B)%Q as PuB
    by (apply Qmult_le_0_compat; [apply Qlt_le_weak, pow2_pos | exact PB]).
  cbn [SF2Q].
  assert (forall sg : bool,
            (inject_Z (cond_Zopp sg (Zpos m)) * pow2 e
             == (if sg then - A else A))%Q) as EA.
  { intros [|]; cbn [cond_Zopp]; unfold A; [rewrite inject_Z_opp; ring | reflexivity]. }
  assert (inject_Z (cond_Zopp sx (Zpos mx)) * pow2 ex
          / (inject_Z (cond_Zopp sy (Zpos my)) * pow2 ey)
          == (if xorb sx sy then - B else B))%Q as EQ.
  { destruct sx, sy; cbn [cond_Zopp xorb]; rewrite EB, ?inject_Z_opp;
      field; split; lra. }
  rewrite EA, EQ. destruct (xorb sx sy).
  - setoid_replace (- A - - B)%Q with (- (A - B))%Q by ring.
    rewrite !Qabs_opp, (Qabs_pos B) by exact PB. exact Hb.
  - rewrite (Qabs_pos B) by exact PB. exact Hb.
Qed.

End Div.

(** *** The operations on doubles *)

Lemma Qabs_le_iff (x y : Q) : (Qabs x <= y <-> - y <= x <= y)%Q.
Proof. apply Qabs_Qle_condition. Qed.

Lemma Qabs_lt_of_le (x y z : Q) : (Qabs x <= y -> y < z -> Qabs x < z)%Q.
Proof. intros H1 H2. lra. Qed.

Lemma finite_nonzero (s : bool) (m : BinNums.positive) (e : Z) :
  (0 < Qabs (SF2Q (S754_finite s m e)))%Q.
Proof.
  destruct (finite_magnitude s m e) as [Hl _].
  pose proof (pow2_pos (Zpos (digits2_pos m) + e - 1)). lra.
Qed.

Lemma add_bound (x y : float) :
  is_finite x = true -> is_finite y = true ->
  (Qabs (B2Q x) < pow2 900)%Q -> (Qabs (B2Q y) < pow2 900)%Q ->
  is_finite (x + y) = true
  /\ (Qabs (B2Q (x + y) - (B2Q x + B2Q y)) <= pow2 (-53) * Qabs (B2Q x + B2Q y))%Q.
Proof.
  unfold is_finite, B2Q. rewrite add_spec.
  pose proof (Prim2SF_valid x) as Vx. pose proof (Prim2SF_valid y) as Vy.
  pose proof (pow2_pos (-53)) as Hu.
  change (SF64add ?a ?b) with (SFadd 53 1024 a b).
  destruct (Prim2SF x) as [sx| | |sx mx ex], (Prim2SF y) as [sy| | |sy my ey];
    cbn [SF_finite]; try discriminate; intros _ _ Bx By.
  - destruct sx, sy; cbn [SFadd Bool.eqb SF_finite SF2Q]; split; try reflexivity;
      change (Qabs (0 - (0 + 0))) with 0%Q; change (Qabs (0 + 0)) with 0%Q; lra.
  - cbn [SFadd SF_finite]. split; [reflexivity|].
    set (v := SF2Q (S754_finite sy my ey)).
    change (SF2Q (S754_zero sx)) with 0%Q.
    setoid_replace (v - (0 + v))%Q with 0%Q by ring.
    change (Qabs 0) with 0%Q. pose proof (Qabs_nonneg (0 + v)). nra.
  - cbn [SFadd SF_finite]. split; [reflexivity|].
    set (v := SF2Q (S754_finite sx mx ex)).
    change (SF2Q (S754_zero sy)) with 0%Q.
    setoid_replace (v - (v + 0))%Q with 0%Q by ring.
    change (Qabs 0) with 0%Q. pose proof (Qabs_nonneg (v + 0)). nra.
  - apply SFadd_finite_bound; assumption.
Qed.

Lemma sub_bound (x y : float) :
  is_finite x = true -> is_finite y = true ->
  (Qabs (B2Q x) < pow2 900)%Q -> (Qabs (B2Q y) < pow2 900)%Q ->
  is_finite (x - y) = true
  /\ (Qabs (B2Q (x - y) - (B2Q x - B2Q y)) <= pow2 (-53) * Qabs (B2Q x - B2Q y))%Q.
Proof.
  unfold is_finite, B2Q. rewrite sub_spec.
  pose proof (Prim2SF_valid x) as Vx. pose proof (Prim2SF_valid y) as Vy.
  pose proof (pow2_pos (-53)) as Hu.
  change (SF64sub ?a ?b) with (SFsub 53 1024 a b).
  destruct (Prim2SF x) as [sx| | |sx mx ex], (Prim2SF y) as [sy| | |sy my ey];
    cbn [SF_finite]; try discriminate; intros _ _ Bx By.
  - destruct sx, sy; cbn [SFsub Bool.eqb negb SF_finite SF2Q]; split; try reflexivity;
      change (Qabs (0 - (0 - 0))) with 0%Q; change (Qabs (0 - 0)) with 0%Q; lra.
  - cbn [SFsub SF_finite]. split; [reflexivity|].
    change (SF2Q (S754_zero sx)) with 0%Q. cbn [SF2Q].
    assert (inject_Z (cond_Zopp (negb sy) (Zpos my)) * pow2 ey
            - (0 - inject_Z (cond_Zopp sy (Zpos my)) * pow2 ey) == 0)%Q as ->.
    { destruct sy; cbn [negb cond_Zopp]; rewrite ?inject_Z_opp; ring. }
    change (Qabs 0) with 0%Q.
    pose proof (Qabs_nonneg (0 - inject_Z (cond_Zopp sy (Zpos my)) * pow2 ey)). nra.
  - cbn [SFsub SF_finite]. split; [reflexivity|].
    set (v := SF2Q (S754_finite sx mx ex)).
    change (SF2Q (S754_zero sy)) with 0%Q.
    setoid_replace (v - (v - 0))%Q with 0%Q by ring.
    change (Qabs 0) with 0%Q. pose proof (Qabs_nonneg (v - 0)). nra.
  - apply SFsub_finite_bound; assumption.
Qed.

Lemma div_bound (x y : float) :
  is_finite x = true -> is_finite y = true ->
  (B2Q x == 0 \/ pow2 (-400) <= Qabs (B2Q x))%Q -> (Qabs (B2Q x) < pow2 400)%Q ->
  (pow2 (-400) <= Qabs (B2Q y))%Q -> (Qabs (B2Q y) < pow2 400)%Q ->
  is_finite (x / y) = true
  /\ (Qabs (B2Q (x / y) - B2Q x / B2Q y) <= pow2 (-53) * Qabs (B2Q x / B2Q y))%Q.
Proof.
  unfold is_finite, B2Q. rewrite div_spec.
  pose proof (Prim2SF_valid x) as Vx. pose proof (Prim2SF_valid y) as Vy.
  pose proof (pow2_pos (-53)) as Hu. pose proof (pow2_pos (-400)) as Hl.
  change (SF64div ?a ?b) with (SFdiv 53 1024 a b).
  destruct (Prim2SF x) as [sx| | |sx mx ex], (Prim2SF y) as [sy| | |sy my ey];
    cbn [SF_finite]; try discriminate; intros _ _ Lx Bx Ly By;
    try (exfalso; change (Qabs (SF2Q (S754_zero sy))) with 0%Q in Ly; lra).
  - cbn [SFdiv SF_finite]. split; [reflexivity|].
    change (SF2Q (S754_zero ?s)) with 0%Q.
    set (v := SF2Q (S754_finite sy my ey)).
    assert (0 / v == 0)%Q as -> by (unfold Qdiv; ring).
    change (Qabs (0 - 0)) with 0%Q. change (Qabs 0) with 0%Q. lra.
  - pose proof (finite_nonzero sx mx ex) as Nx.
    destruct Lx as [Lx|Lx]; [rewrite Lx in Nx; change (Qabs 0) with 0%Q in Nx; lra|].
    apply SFdiv_finite_bound; try assumption; split; assumption.
Qed.

Lemma pow2_0 : (pow2 0 == 1)%Q.
Proof. reflexivity. Qed.

(** [float(n)] is exact for a natural number below [2^53]. *)
Lemma of_small_Z (n : Z) :
  0 <= n < 2 ^ 53 ->
  is_finite (PrimFloat.of_uint63 (Uint63.of_Z n)) = true
  /\ (B2Q (PrimFloat.of_uint63 (Uint63.of_Z n)) == inject_Z n)%Q.
Proof.
  intros Hn. unfold is_finite, B2Q. rewrite of_uint63_spec, Uint63.of_Z_spec.
  rewrite Z.mod_small by (change Uint63.wB with (2 ^ 63); lia).
  change prec with 53. change emax with 1024.
  assert (Zdigits2 n <= 53) as Hd by (apply Zdigits2_le; lia).
  destruct (normalize_bound n 0 ltac:(lia) ltac:(lia)) as (Hf & _ & He).
  split; [exact Hf|]. rewrite (He Hd), pow2_0. ring.
Qed.

(** *** Sums of three doubles *)

Lemma ulp_half_bounds : (0 < pow2 (-53) <= 1 # 1024)%Q.
Proof.
  split; [apply pow2_pos|].
  assert (pow2 (-10) == 1 # 1024)%Q as <- by reflexivity.
  apply pow2_le. lia.
Qed.

Lemma pow2_big (e : Z) : 10 <= e -> (1024 <= pow2 e)%Q.
Proof.
  intros He. assert (pow2 10 == 1024)%Q as <- by reflexivity.
  now apply pow2_le.
Qed.

Lemma pow2_small (e : Z) : e <= 0 -> (pow2 e <= 1)%Q.
Proof.
  intros He. assert (pow2 0 == 1)%Q as <- by reflexivity.
  now apply pow2_le.
Qed.

(** A relative error on a bounded value is an absolute error. *)
Lemma within (r v u K : Q) :
  (0 <= u -> Qabs (r - v) <= u * Qabs v -> Qabs v <= K ->
   v - u * K <= r <= v + u * K)%Q.
Proof.
  intros Hu Hr Hv.
  assert (u * Qabs v <= u * K)%Q as Hm.
  { rewrite !(Qmult_comm u). now apply Qmult_le_compat_r. }
  assert (Qabs (r - v) <= u * K)%Q as Hr' by lra.
  apply Qabs_le_iff in Hr'. lra.
Qed.

Section Sum3.

Variables (x y z : float) (vx vy vz ex ey ez : Q).
Hypothesis Fx : is_finite x = true.
Hypothesis Fy : is_finite y = true.
Hypothesis Fz : is_finite z = true.
Hypothesis Ax : (Qabs (B2Q x - vx) <= ex)%Q.
Hypothesis Ay : (Qabs (B2Q y - vy) <= ey)%Q.
Hypothesis Az : (Qabs (B2Q z - vz) <= ez)%Q.
Hypothesis Etot : (ex + ey + ez <= 36 * pow2 (-53))%Q.
Hypothesis MX : (Qabs vx <= 11)%Q.
Hypothesis MY : (Qabs vy <= 11)%Q.
Hypothesis MZ : (Qabs vz <= 11)%Q.
Hypothesis Sum : (vx + vy + vz == 1)%Q.

Lemma sum3_errors_nonneg : (0 <= ex /\ 0 <= ey /\ 0 <= ez)%Q.
Proof.
  pose proof (Qabs_nonneg (B2Q x - vx)). pose proof (Qabs_nonneg (B2Q y - vy)).
  pose proof (Qabs_nonneg (B2Q z - vz)). repeat split; lra.
Qed.

(** [(x + y) + z] *)
Lemma sum3_left :
  (Qabs (vx + vy) <= 17)%Q ->
  is_finite (x + y + z) = true
  /\ (Qabs (B2Q (x + y + z) - 1) <= pow2 (-47))%Q.
Proof.
  intros MXY.
  destruct sum3_errors_nonneg as (Hex & Hey & Hez).
  pose proof ulp_half_bounds as [Hu0 Hu1]. pose proof (pow2_big 900 ltac:(lia)) as Hbig.
  assert (pow2 (-47) == 64 * pow2 (-53))%Q as E47.
  { replace (-47) with (6 + -53) by lia. rewrite pow2_add.
    assert (pow2 6 == 64)%Q as -> by reflexivity. reflexivity. }
  apply Qabs_le_iff in Ax, Ay, Az, MX, MY, MZ, MXY.
  destruct (add_bound x y Fx Fy) as [Fs Hs];
    [apply Qabs_lt_of_le with (y := 12%Q); [apply Qabs_le_iff|]; lra
    |apply Qabs_lt_of_le with (y := 12%Q); [apply Qabs_le_iff|]; lra|].
  apply (within _ _ _ 18%Q) in Hs; [|lra|apply Qabs_le_iff; lra].
  destruct (add_bound (x + y) z Fs Fz) as [Ft Ht];
    [apply Qabs_lt_of_le with (y := 19%Q); [apply Qabs_le_iff|]; lra
    |apply Qabs_lt_of_le with (y := 12%Q); [apply Qabs_le_iff|]; lra|].
  apply (within _ _ _ 2%Q) in Ht; [|lra|apply Qabs_le_iff; lra].
  split; [exact Ft|]. rewrite E47. apply Qabs_le_iff. lra.
Qed.

(** [x + (y + z)] *)
Lemma sum3_right :
  (Qabs (vy + vz) <= 17)%Q ->
  is_finite (x + (y + z)) = true
  /\ (Qabs (B2Q (x + (y + z)) - 1) <= pow2 (-47))%Q.
Proof.
  intros MYZ.
  destruct sum3_errors_nonneg as (Hex & Hey & Hez).
  pose proof ulp_half_bounds as [Hu0 Hu1]. pose proof (pow2_big 900 ltac:(lia)) as Hbig.
  assert (pow2 (-47) == 64 * pow2 (-53))%Q as E47.
  { replace (-47) with (6 + -53) by lia. rewrite pow2_add.
    assert (pow2 6 == 64)%Q as -> by reflexivity. reflexivity. }
  apply Qabs_le_iff in Ax, Ay, Az, MX, MY, MZ, MYZ.
  destruct (add_bound y z Fy Fz) as [Fs Hs];
    [apply Qabs_lt_of_le with (y := 12%Q); [apply Qabs_le_iff|]; lra
    |apply Qabs_lt_of_le with (y := 12%Q); [apply Qabs_le_iff|]; lra|].
  apply (within _ _ _ 18%Q) in Hs; [|lra|apply Qabs_le_iff; lra].
  destruct (add_bound x (y + z) Fx Fs) as [Ft Ht];
    [apply Qabs_lt_of_le with (y := 12%Q); [apply Qabs_le_iff|]; lra
    |apply Qabs_lt_of_le with (y := 19%Q); [apply Qabs_le_iff|]; lra|].
  apply (within _ _ _ 2%Q) in Ht; [|lra|apply Qabs_le_iff; lra].
  split; [exact Ft|]. rewrite E47. apply Qabs_le_iff. lra.
Qed.

End Sum3.

(** *** The score fractions *)

Lemma float_of_small_Z (n : Z) :
  0 <= n < 2 ^ 53 ->
  is_finite (float_of_Z n) = true /\ (B2Q (float_of_Z n) == inject_Z n)%Q.
Proof.
  intros Hn. unfold float_of_Z.
  assert ((n <? 0) = false) as -> by (apply Z.ltb_ge; lia).
  now apply of_small_Z.
Qed.

Lemma fraction_bounds (p n k : Z) :
  0 <= p <= k -> 1 <= n ->
  (0 <= inject_Z p / inject_Z n <= inject_Z k)%Q.
Proof.
  intros Hp Hn.
  assert (0 < inject_Z n)%Q as Pn
    by (change 0%Q with (inject_Z 0); rewrite <- Zlt_Qlt; lia).
  assert (0 <= inject_Z p)%Q as Pp
    by (change 0%Q with (inject_Z 0); rewrite <- Zle_Qle; lia).
  split.
  - apply Qle_shift_div_l; [exact Pn | lra].
  - apply Qle_shift_div_r; [exact Pn|].
    rewrite <- inject_Z_mult, <- Zle_Qle. nia.
Qed.

(** A count divided by a word count, in double precision: finite, and
    within [k * 2^-53] of the exact fraction when the count is at most
    [k]. *)
Lemma score_fraction (p n k : Z) :
  0 <= p <= k -> k <= 12 -> 1 <= n < 2 ^ 53 ->
  is_finite (float_of_Z p / float_of_Z n) = true
  /\ (Qabs (B2Q (float_of_Z p / float_of_Z n) - inject_Z p / inject_Z n)
      <= inject_Z k * pow2 (-53))%Q.
Proof.
  intros Hp Hk Hn.
  destruct (float_of_small_Z p ltac:(lia)) as [Fp Ep].
  destruct (float_of_small_Z n ltac:(lia)) as [Fn En].
  destruct (fraction_bounds p n k Hp ltac:(lia)) as [Hl Hu].
  pose proof ulp_half_bounds as [Hu0 Hu1].
  pose proof (pow2_big 400 ltac:(lia)) as Hbig.
  pose proof (pow2_small (-400) ltac:(lia)) as Hsmall.
  assert (0 <= inject_Z p <= 12)%Q as Bp.
  { change 0%Q with (inject_Z 0). change 12%Q with (inject_Z 12).
    rewrite <- !Zle_Qle. lia. }
  assert (1 <= inject_Z n < 1024 * 1024 * 1024 * 1024 * 1024 * 1024)%Q as Bn.
  { change 1%Q with (inject_Z 1).
    change (1024 * 1024 * 1024 * 1024 * 1024 * 1024)%Q with (inject_Z (2 ^ 60)).
    rewrite <- Zle_Qle, <- Zlt_Qlt. lia. }
  pose proof (pow2_lt 60 400 ltac:(lia)) as H60.
  assert (pow2 60 == 1024 * 1024 * 1024 * 1024 * 1024 * 1024)%Q as E60 by reflexivity.
  destruct (div_bound (float_of_Z p) (float_of_Z n) Fp Fn) as [Fr Hr].
  - rewrite Ep. destruct (Z.eq_dec p 0) as [->|Hp0]; [left; reflexivity|right].
    rewrite Qabs_pos by lra.
    assert (1 <= inject_Z p)%Q
      by (change 1%Q with (inject_Z 1); rewrite <- Zle_Qle; lia). lra.
  - rewrite Ep, Qabs_pos by lra. lra.
  - rewrite En, Qabs_pos by lra. lra.
  - rewrite En, Qabs_pos by lra. lra.
  - split; [exact Fr|]. rewrite Ep, En in Hr.
    apply (within _ _ _ (inject_Z k)) in Hr;
      [|lra|rewrite Qabs_pos by exact Hl; exact Hu].
    apply Qabs_le_iff. rewrite (Qmult_comm (inject_Z k)). lra.
Qed.

Section ScoreSum.

Variables p q n : Z.
Hypothesis Hp : 0 <= p <= 6.
Hypothesis Hq : 0 <= q <= 6.
Hypothesis Hn : 1 <= n < 2 ^ 53.

Let a : float := (float_of_Z p / float_of_Z n)%float.
Let b : float := (float_of_Z q / float_of_Z n)%float.
Let c : float := (1 - float_of_Z (p + q) / float_of_Z n)%float.

Lemma rest_score :
  is_finite c = true
  /\ (Qabs (B2Q c - (1 - inject_Z (p + q) / inject_Z n)) <= 24 * pow2 (-53))%Q.
Proof.
  destruct (score_fraction (p + q) n 12 ltac:(lia) ltac:(lia) Hn) as [Ft Ht].
  destruct (fraction_bounds (p + q) n 12 ltac:(lia) ltac:(lia)) as [Hl Hu].
  pose proof ulp_half_bounds as [Hu0 Hu1].
  pose proof (pow2_big 900 ltac:(lia)) as Hbig.
  set (t := (float_of_Z (p + q) / float_of_Z n)%float) in *.
  set (T := (inject_Z (p + q) / inject_Z n)%Q) in *.
  change (inject_Z 12) with 12%Q in *.
  apply Qabs_le_iff in Ht.
  assert (B2Q 1 == 1)%Q as E1 by reflexivity.
  destruct (sub_bound 1 t eq_refl Ft) as [Fc Hc].
  - rewrite E1. change (Qabs 1) with 1%Q. lra.
  - apply Qabs_lt_of_le with (y := 13%Q); [apply Qabs_le_iff|]; lra.
  - rewrite E1 in Hc.
    apply (within _ _ _ 12%Q) in Hc; [|lra|apply Qabs_le_iff; lra].
    split; [exact Fc|]. apply Qabs_le_iff. fold c in Hc. lra.
Qed.

(** The three double-precision scores add up to 1 within [2^-47], in each
    of the three groupings of the sum. *)
Lemma scores_sum_tolerance :
  (is_finite (a + b + c) = true /\ (Qabs (B2Q (a + b + c) - 1) <= pow2 (-47))%Q)
  /\ (is_finite (a + (b + c)) = true
      /\ (Qabs (B2Q (a + (b + c)) - 1) <= pow2 (-47))%Q)
  /\ (is_finite (a + c + b) = true
      /\ (Qabs (B2Q (a + c + b) - 1) <= pow2 (-47))%Q).
Proof.
  destruct (score_fraction p n 6 Hp ltac:(lia) Hn) as [Fa Ha].
  destruct (score_fraction q n 6 Hq ltac:(lia) Hn) as [Fb Hb].
  destruct rest_score as [Fc Hc].
  destruct (fraction_bounds p n 6 Hp ltac:(lia)) as [Pl Pu].
  destruct (fraction_bounds q n 6 Hq ltac:(lia)) as [Ql Qu].
  fold a in Fa, Ha. fold b in Fb, Hb.
  change (inject_Z 6) with 6%Q in *.
  assert (inject_Z (p + q) / inject_Z n
          == inject_Z p / inject_Z n + inject_Z q / inject_Z n)%Q as ET.
  { rewrite inject_Z_plus. field. change 0%Q with (inject_Z 0).
    rewrite inject_Z_injective. lia. }
  rewrite ET in Hc.
  set (P := (inject_Z p / inject_Z n)%Q) in *.
  set (R := (inject_Z q / inject_Z n)%Q) in *.
  assert (6 * pow2 (-53) + 6 * pow2 (-53) + 24 * pow2 (-53) <= 36 * pow2 (-53))%Q
    as Etot by lra.
  assert (6 * pow2 (-53) + 24 * pow2 (-53) + 6 * pow2 (-53) <= 36 * pow2 (-53))%Q
    as Etot' by lra.
  assert (Qabs P <= 11)%Q as MP by (apply Qabs_le_iff; lra).
  assert (Qabs R <= 11)%Q as MR by (apply Qabs_le_iff; lra).
  assert (Qabs (1 - (P + R)) <= 11)%Q as MZ by (apply Qabs_le_iff; lra).
  split; [|split].
  - apply (sum3_left a b c P R (1 - (P + R)) _ _ _ Fa Fb Fc Ha Hb Hc Etot MP MR MZ).
    + ring.
    + apply Qabs_le_iff; lra.
  - apply (sum3_right a b c P R (1 - (P + R)) _ _ _ Fa Fb Fc Ha Hb Hc Etot MP MR MZ).
    + ring.
    + apply Qabs_le_iff; lra.
  - apply (sum3_left a c b P (1 - (P + R)) R _ _ _ Fa Fc Fb Ha Hc Hb Etot' MP MZ MR).
    + ring.
    + apply Qabs_le_iff; lra.
Qed.

End ScoreSum.

(** ** Sentiment *)

Section SentimentFacts.

Import PyStr.

(** What [analyze_sentiment] returns, in any arithmetic: it never raises,
    because the divisor is at least 1. *)
Lemma analyze_sentiment_unfold {F : Type} `{PyFloat F} (text : string) :
  let p := count_present positive_words (lower text) in
  let q := count_present negative_words (lower text) in
  let n := Z.max (Z.of_nat (List.length (split text))) 1 in
  analyze_sentiment text
  = Ok {| sentiment :=
            if p >? q then "positive"
            else if q >? p then "negative" else "neutral";
          sentiment_confidence :=
            if p >? q then
              fmin (lit (9 # 10)) (fadd (lit (5 # 10)) (fmul (of_int p) (lit (1 # 10))))
            else if q >? p then
              fmin (lit (9 # 10)) (fadd (lit (5 # 10)) (fmul (of_int q) (lit (1 # 10))))
            else lit (6 # 10);
          scores := {| positive := fdiv (of_int p) (of_int n);
                       negative := fdiv (of_int q) (of_int n);
                       neutral := fsub (of_int 1) (fdiv (of_int (p + q)) (of_int n)) |} |}.
Proof.
  intros p q n. unfold analyze_sentiment, true_div. fold p q n.
  assert ((n =? 0) = false) as -> by (apply Z.eqb_neq; unfold n; lia).
  cbn [bind]. destruct (p >? q); [reflexivity|]. destruct (q >? p); reflexivity.
Qed.

(** The confidence of a decision in double precision, for each count a
    six-word dictionary can give; the product may be taken in either order. *)
Lemma decision_confidence (c : Z) :
  1 <= c <= 6 ->
  fmin (lit (9 # 10)) (fadd (lit (5 # 10)) (fmul (of_int c) (lit (1 # 10))))
  = fmin 0.9%float (0.5 + 0.1 * float_of_Z c)%float.
Proof.
  intros Hc.
  assert (c = 1 \/ c = 2 \/ c = 3 \/ c = 4 \/ c = 5 \/ c = 6) as Hcases by lia.
  destruct Hcases as [->|[->|[->|[->|[->| ->]]]]]; vm_compute; reflexivity.
Qed.

Lemma decision_confidence_values (c : Z) :
  1 <= c <= 6 ->
  In (fmin 0.9%float (0.5 + 0.1 * float_of_Z c)%float)
     [0.6%float; 0.7%float; 0.8%float; 0.9%float].
Proof.
  intros Hc.
  assert (c = 1 \/ c = 2 \/ c = 3 \/ c = 4 \/ c = 5 \/ c = 6) as Hcases by lia.
  destruct Hcases as [->|[->|[->|[->|[->| ->]]]]]; vm_compute; tauto.
Qed.

(** The confidence of a decision won with count [c], as the code computes
    it, against the formula written with the operations of double precision
    and against its four values. *)
Lemma decision_confidence_table (c : Z) :
  1 <= c <= 6 ->
  fmin (lit (9 # 10)) (fadd (lit (5 # 10)) (fmul (of_int c) (lit (1 # 10))))
  = (let x := (0.5 + 0.1 * float_of_Z c)%float in
     if (x <? 0.9)%float then x else 0.9%float)
  /\ fmin (lit (9 # 10)) (fadd (lit (5 # 10)) (fmul (of_int c) (lit (1 # 10))))
     = (if c =? 1 then 0.6%float else if c =? 2 then 0.7%float
        else if c =? 3 then 0.8%float else 0.9%float).
Proof.
  intros Hc.
  assert (c = 1 \/ c = 2 \/ c = 3 \/ c = 4 \/ c = 5 \/ c = 6) as Hcases by lia.
  destruct Hcases as [->|[->|[->|[->|[->| ->]]]]]; vm_compute; split; reflexivity.
Qed.

(** C1.  For every text, [sentiment] counts the positive and the negative
    dictionary words that occur in the text with the case of letters
    ignored (each word of the fixed set counted when it occurs), returns
    [positive] or [negative] for the larger count with confidence
    [min(0.9, 0.5 + 0.1 * winning count)], that is 0.6, 0.7, 0.8 for the
    counts 1, 2, 3 and 0.9 from 4 on, and [neutral] with confidence 0.6 on a
    tie, in double precision.  For "I love this, it is great" the sentiment
    is [positive] and the confidence is 0.7; capitals match as well, five
    positive words give 0.9 and not 1.0, and a repeated word counts once. *)
Theorem sentiment_majority_and_confidence :
  (forall text : string,
    exists (found_pos found_neg : list string) (r : SentimentResult float),
      (forall w, In w found_pos <->
                 In w positive_words /\ occurs_ignoring_case w text)
      /\ NoDup found_pos
      /\ (forall w, In w found_neg <->
                    In w negative_words /\ occurs_ignoring_case w text)
      /\ NoDup found_neg
      /\ analyze_sentiment text = Ok r
      /\ let p := Z.of_nat (List.length found_pos) in
         let q := Z.of_nat (List.length found_neg) in
         let capped c :=
           (let x := (0.5 + 0.1 * float_of_Z c)%float in
            if (x <? 0.9)%float then x else 0.9%float) in
         let tabled c :=
           (if c =? 1 then 0.6%float else if c =? 2 then 0.7%float
            else if c =? 3 then 0.8%float else 0.9%float) in
         (p > q ->
            sentiment r = "positive"
            /\ sentiment_confidence r = capped p
            /\ sentiment_confidence r = tabled p)
         /\ (q > p ->
            sentiment r = "negative"
            /\ sentiment_confidence r = capped q
            /\ sentiment_confidence r = tabled q)
         /\ (p = q ->
            sentiment r = "neutral" /\ sentiment_confidence r = 0.6%float))
  /\ (exists r : SentimentResult float,
       analyze_sentiment "I love this, it is great" = Ok r
       /\ sentiment r = "positive"
       /\ sentiment_confidence r = 0.7%float)
  /\ (exists r : SentimentResult float,
       analyze_sentiment "I LOVE this, it is GREAT" = Ok r
       /\ sentiment r = "positive"
       /\ sentiment_confidence r = 0.7%float)
  /\ (exists r : SentimentResult float,
       analyze_sentiment "Terrible, AWFUL and bad" = Ok r
       /\ sentiment r = "negative"
       /\ sentiment_confidence r = 0.8%float)
  /\ (exists r : SentimentResult float,
       analyze_sentiment "good great excellent amazing wonderful" = Ok r
       /\ sentiment r = "positive"
       /\ sentiment_confidence r = 0.9%float)
  /\ (exists r : SentimentResult float,
       analyze_sentiment "good good bad" = Ok r
       /\ sentiment r = "neutral"
       /\ sentiment_confidence r = 0.6%float).
Proof.
  split.
  - intros text.
    destruct (present_small_words positive_words text positive_words_NoDup
                (fun w Hw => dictionary_in_small_letters w (or_introl Hw)))
      as (fp & Hfp & Hndp & Hp).
    destruct (present_small_words negative_words text negative_words_NoDup
                (fun w Hw => dictionary_in_small_letters w (or_intror Hw)))
      as (fq & Hfq & Hndq & Hq).
    pose proof (count_present_bounds positive_words (lower text)) as Bp.
    pose proof (count_present_bounds negative_words (lower text)) as Bq.
    cbn [positive_words negative_words List.length] in Bp, Bq.
    eexists fp, fq, _.
    split; [exact Hfp|]. split; [exact Hndp|].
    split; [exact Hfq|]. split; [exact Hndq|].
    split; [apply analyze_sentiment_unfold|].
    cbv zeta. rewrite <- Hp, <- Hq. cbn [sentiment sentiment_confidence].
    set (p := count_present positive_words (lower text)) in *.
    set (q := count_present negative_words (lower text)) in *.
    split; [|split]; intros Hpq.
    + assert ((p >? q) = true) as -> by (apply Z.gtb_lt; lia).
      split; [reflexivity|]. apply (decision_confidence_table p). lia.
    + assert ((p >? q) = false) as -> by (rewrite Z.gtb_ltb; apply Z.ltb_ge; lia).
      assert ((q >? p) = true) as -> by (apply Z.gtb_lt; lia).
      split; [reflexivity|]. apply (decision_confidence_table q). lia.
    + rewrite Hpq, Z.gtb_ltb, Z.ltb_irrefl. split; reflexivity.
  - repeat split; eexists; (split; [vm_compute; reflexivity|]); split; reflexivity.
Qed.

Lemma exact_scores_sum (p q n : Z) :
  1 <= n ->
  (fdiv (of_int p) (of_int n) + fdiv (of_int q) (of_int n)
   + fsub (of_int 1) (fdiv (of_int (p + q)) (of_int n)) == 1)%Q.
Proof.
  intros Hn. cbn [fdiv fsub of_int exactQ]. rewrite inject_Z_plus.
  field. change 0%Q with (inject_Z 0). rewrite inject_Z_injective. lia.
Qed.

(** C3, as the code has it.  For every text the confidence, in double
    precision, is one of 0.6, 0.7, 0.8, 0.9, hence within [0, 0.9]; the
    three scores are the positive count, the negative count and one minus
    their sum, each divided by the word count taken as at least 1.  In
    exact arithmetic, where no division rounds, the three scores add up
    to 1.  In double precision, for a text of fewer than [2^53] words (where
    the word count converts exactly), their sum is a finite double within
    [2^-47], about 7.1e-15, of 1, in each of the three groupings of the
    sum. *)
Theorem sentiment_confidence_range_and_scores_sum (text : string) :
  let p := count_present positive_words (lower text) in
  let q := count_present negative_words (lower text) in
  let n := Z.max (Z.of_nat (List.length (split text))) 1 in
  (exists r : SentimentResult float,
     analyze_sentiment text = Ok r
     /\ In (sentiment_confidence r) [0.6%float; 0.7%float; 0.8%float; 0.9%float]
     /\ (0 <=? sentiment_confidence r)%float = true
     /\ (sentiment_confidence r <=? 0.9)%float = true
     /\ scores r
        = {| positive := (float_of_Z p / float_of_Z n)%float;
             negative := (float_of_Z q / float_of_Z n)%float;
             neutral := (1 - float_of_Z (p + q) / float_of_Z n)%float |}
     /\ (Z.of_nat (List.length (split text)) < 2 ^ 53 ->
         let a := positive (scores r) in
         let b := negative (scores r) in
         let c := neutral (scores r) in
         (is_finite (a + b + c)%float = true
          /\ (Qabs (B2Q (a + b + c)%float - 1) <= pow2 (-47))%Q)
         /\ (is_finite (a + (b + c))%float = true
             /\ (Qabs (B2Q (a + (b + c))%float - 1) <= pow2 (-47))%Q)
         /\ (is_finite (a + c + b)%float = true
             /\ (Qabs (B2Q (a + c + b)%float - 1) <= pow2 (-47))%Q)))
  /\ (exists r : SentimentResult Q,
     analyze_sentiment text = Ok r
     /\ scores r
        = {| positive := (inject_Z p / inject_Z n)%Q;
             negative := (inject_Z q / inject_Z n)%Q;
             neutral := (1 - inject_Z (p + q) / inject_Z n)%Q |}
     /\ (positive (scores r) + negative (scores r) + neutral (scores r) == 1)%Q)
  /\ (pow2 (-47) == 1 # 140737488355328)%Q.
Proof.
  intros p q n.
  pose proof (count_present_bounds positive_words (lower text)) as Bp.
  pose proof (count_present_bounds negative_words (lower text)) as Bq.
  cbn [positive_words negative_words List.length] in Bp, Bq.
  fold p in Bp. fold q in Bq. split; [|split].
  - eexists. split; [apply analyze_sentiment_unfold|].
    cbn [sentiment_confidence scores]. fold p q n.
    assert (In (if p >? q
                then fmin (lit (9 # 10))
                       (fadd (lit (5 # 10)) (fmul (of_int p) (lit (1 # 10))))
                else if q >? p
                then fmin (lit (9 # 10))
                       (fadd (lit (5 # 10)) (fmul (of_int q) (lit (1 # 10))))
                else lit (6 # 10))
               [0.6%float; 0.7%float; 0.8%float; 0.9%float]) as Hin.
    { destruct (p >? q) eqn:Hpq.
      - apply Z.gtb_lt in Hpq. rewrite decision_confidence by lia.
        apply decision_confidence_values. lia.
      - destruct (q >? p) eqn:Hqp.
        + apply Z.gtb_lt in Hqp. rewrite decision_confidence by lia.
          apply decision_confidence_values. lia.
        + left. reflexivity. }
    split; [exact Hin|].
    split; [|split; [|split; [reflexivity|]]];
      try (destruct Hin as [<-|[<-|[<-|[<-|[]]]]]; reflexivity).
    intros Hwords. cbn [positive negative neutral].
    exact (scores_sum_tolerance p q n ltac:(lia) ltac:(lia) ltac:(unfold n; lia)).
  - eexists. split; [apply analyze_sentiment_unfold|].
    cbn [scores positive negative neutral]. fold p q n.
    split; [reflexivity|]. apply exact_scores_sum. unfold n. lia.
  - reflexivity.
Qed.

(** For the six-word text of the counterexample below, the sum of the three
    double-precision scores is within [2^-47] of 1. *)
Lemma sentiment_scores_sum_within_tolerance :
  exists r : SentimentResult float,
    analyze_sentiment "good but bad terrible awful hateful" = Ok r
    /\ is_finite (positive (scores r) + negative (scores r)
                  + neutral (scores r))%float = true
    /\ (Qabs (B2Q (positive (scores r) + negative (scores r)
                   + neutral (scores r))%float - 1) <= pow2 (-47))%Q.
Proof.
  pose proof (sentiment_confidence_range_and_scores_sum
                "good but bad terrible awful hateful") as Hthm.
  cbv zeta in Hthm.
  destruct Hthm as [(r & Hr & _ & _ & _ & _ & Htol) _].
  exists r. split; [exact Hr|].
  exact (proj1 (Htol ltac:(vm_compute; reflexivity))).
Defined.

(** C3 as stated fails in the arithmetic the code runs in: for a six-word
    text with one positive and four negative dictionary words the three
    double-precision scores are 1/6, 4/6 and 1 - 5/6 rounded, and their sum,
    in whichever order it is taken, is not 1. *)
Lemma sentiment_scores_sum_is_not_one :
  exists r : SentimentResult float,
    analyze_sentiment "good but bad terrible awful hateful" = Ok r
    /\ "good but bad terrible awful hateful" <> ""
    /\ let a := positive (scores r) in
       let b := negative (scores r) in
       let c := neutral (scores r) in
       ((a + b) + c = 0.99999999999999989)%float
       /\ ((a + b) + c =? 1)%float = false
       /\ (a + (b + c) =? 1)%float = false
       /\ ((a + c) + b =? 1)%float = false.
Proof.
  eexists. split; [vm_compute; reflexivity|].
  split; [discriminate|]. cbv zeta. repeat split.
Qed.

(** C10.  Each dictionary word adds 1 to its count when it occurs in the
    text as a substring with the case of letters ignored, and 0 otherwise,
    however often it occurs; so a count can exceed the number of words of
    the text.  "GOOD Good gOOd" counts one positive word.  For the single
    token "goodgreatlovebad" the positive score is 3, the negative score 1
    and the neutral score -3: scores outside [0, 1], the neutral one
    negative. *)
Theorem dictionary_word_counts_once :
  (forall (word : string) (words : list string) (text_lower : string),
     count_present (word :: words) text_lower
     = (if contains word text_lower then 1 else 0)
       + count_present words text_lower)
  /\ (forall (word : string) (words : list string) (text : string),
     In word positive_words \/ In word negative_words ->
     (count_present (word :: words) (lower text)
      = 1 + count_present words (lower text)
      /\ occurs_ignoring_case word text)
     \/ (count_present (word :: words) (lower text)
         = count_present words (lower text)
         /\ ~ occurs_ignoring_case word text))
  /\ (forall text_lower : string, count_present [] text_lower = 0)
  /\ (forall words text_lower,
     0 <= count_present words text_lower <= Z.of_nat (List.length words))
  /\ count_present positive_words (lower "GOOD Good gOOd") = 1
  /\ count_present negative_words (lower "Bad, BAD, bad and Worst") = 2
  /\ exists r : SentimentResult float,
       analyze_sentiment "goodgreatlovebad" = Ok r
       /\ split "goodgreatlovebad" = ["goodgreatlovebad"]
       /\ scores r
          = {| positive := 3%float; negative := 1%float; neutral := (-3)%float |}
       /\ (1 <? positive (scores r))%float = true
       /\ (neutral (scores r) <? 0)%float = true.
Proof.
  split; [|split; [|split; [|split; [|split; [|split]]]]].
  - intros word words text_lower. unfold count_present. cbn [filter].
    destruct (contains word text_lower); reflexivity.
  - intros word words text Hword.
    pose proof (contains_lower_ignoring_case word text
                  (dictionary_in_small_letters word Hword)) as Hiff.
    unfold count_present. cbn [filter].
    destruct (contains word (lower text)).
    + left. split; [reflexivity | now apply Hiff].
    + right. split; [reflexivity|]. intros Hocc. apply Hiff in Hocc. discriminate.
  - reflexivity.
  - apply count_present_bounds.
  - reflexivity.
  - reflexivity.
  - eexists. split; [vm_compute; reflexivity|]. repeat split.
Qed.

End SentimentFacts.

(** ** Splitting into words *)

Section SplitFacts.

Import PyStr.

Lemma no_space_append (a b : string) :
  no_space (a ++ b) = no_space a && no_space b.
Proof.
  induction a as [|c a IH]; simpl; [reflexivity|].
  now rewrite IH, andb_assoc.
Qed.

Lemma flush_word (w : string) : w <> "" -> flush w = [w].
Proof. destruct w; [congruence | reflexivity]. Qed.

Lemma append_not_empty_l (a b : string) : a <> "" -> (a ++ b)%string <> "".
Proof. destruct a; [congruence | discriminate]. Qed.

Lemma append_not_empty_r (a b : string) : b <> "" -> (a ++ b)%string <> "".
Proof. destruct a; [auto | discriminate]. Qed.

(** Reading a run of non-whitespace characters only extends the word. *)
Lemma split_from_run (w cur s : string) :
  no_space w = true ->
  split_from cur (w ++ s) = split_from (cur ++ w) s.
Proof.
  revert cur; induction w as [|c w IH]; intros cur Hw; simpl.
  - now rewrite append_empty_r.
  - simpl in Hw. apply andb_prop in Hw as [Hc Hw].
    apply negb_true_iff in Hc. rewrite Hc, IH by assumption.
    now rewrite append_assoc.
Qed.

(** Every item of a split is a word. *)
Lemma split_from_words (s cur : string) :
  no_space cur = true -> Forall is_word (split_from cur s).
Proof.
  revert cur; induction s as [|c s IH]; intros cur Hcur; simpl.
  - destruct cur; simpl; [constructor|].
    constructor; [split; [discriminate | assumption] | constructor].
  - destruct (isspace c) eqn:Hc.
    + apply Forall_app. split.
      * destruct cur; simpl; [constructor|].
        constructor; [split; [discriminate | assumption] | constructor].
      * now apply IH.
    + apply IH. rewrite no_space_append, Hcur. simpl. now rewrite Hc.
Qed.

Lemma split_words (s : string) : Forall is_word (split s).
Proof. now apply split_from_words. Qed.

(** A text has no word exactly when it is made of whitespace only. *)
Lemma split_from_nil_iff (s cur : string) :
  split_from cur s = [] <-> cur = "" /\ all_space s = true.
Proof.
  revert cur; induction s as [|c s IH]; intros cur; simpl.
  - destruct cur; simpl; intuition congruence.
  - destruct (isspace c) eqn:Hc; simpl.
    + split.
      * intros Happ. apply app_eq_nil in Happ as [Hf Hs].
        apply IH in Hs as [_ Hs]. destruct cur; [auto | discriminate].
      * intros [-> Hs]. simpl. apply IH. auto.
    + rewrite IH. split; [intros [He _] | intros [_ He]; discriminate].
      apply append_is_empty in He as [_ He]. discriminate.
Qed.

Lemma split_nil_iff (s : string) : split s = [] <-> all_space s = true.
Proof. unfold split. rewrite split_from_nil_iff. tauto. Qed.

(** Words joined by one space, then a whitespace-free tail [t]: the split
    gives the words back, with [t] glued to the last one. *)
Lemma split_from_join (ws : list string) (w cur t : string) :
  Forall is_word (w :: ws) -> no_space t = true ->
  split_from cur (join " " (w :: ws) ++ t)
  = match ws with
    | [] => [cur ++ w ++ t]
    | _ => (cur ++ w) :: removelast ws ++ [last ws "" ++ t]
    end%string%list.
Proof.
  revert w cur; induction ws as [|w' ws IH]; intros w cur Hws Ht.
  - inversion Hws as [|? ? [Hne Hw] _]; subst. cbn [join].
    rewrite <- (append_empty_r (w ++ t)) at 1.
    rewrite split_from_run by (now rewrite no_space_append, Hw, Ht).
    cbn [split_from]. apply flush_word.
    now apply append_not_empty_r, append_not_empty_l.
  - inversion Hws as [|? ? [Hne Hw] Hws']; subst.
    change (join " " (w :: w' :: ws))
      with (w ++ String " " (join " " (w' :: ws)))%string.
    rewrite append_assoc, split_from_run by assumption.
    cbn [append split_from]. change (isspace " ") with true. cbv iota.
    rewrite flush_word by now apply append_not_empty_r.
    rewrite IH by assumption. cbn [app]. f_equal.
    destruct ws as [|w'' ws]; [reflexivity|]. reflexivity.
Qed.

Lemma split_join_tail (ws : list string) (t : string) :
  Forall is_word ws -> ws <> [] -> no_space t = true ->
  split (join " " ws ++ t) = (removelast ws ++ [last ws "" ++ t]%string)%list.
Proof.
  intros Hws Hne Ht. destruct ws as [|w ws]; [congruence|].
  unfold split. rewrite split_from_join by assumption.
  destruct ws as [|w' ws]; reflexivity.
Qed.

Lemma split_join_tail_length (ws : list string) (t : string) :
  Forall is_word ws -> ws <> [] -> no_space t = true ->
  List.length (split (join " " ws ++ t)) = List.length ws.
Proof.
  intros Hws Hne Ht. rewrite split_join_tail by assumption.
  rewrite length_app, removelast_firstn_len, length_firstn.
  destruct ws as [|w ws]; [congruence|]. cbn [List.length]. lia.
Qed.

End SplitFacts.

(** ** Summary *)

Lemma Forall_firstn_keep {A : Type} (P : A -> Prop) (n : nat) (l : list A) :
  Forall P l -> Forall P (firstn n l).
Proof.
  intros Hl. rewrite <- (firstn_skipn n l) in Hl.
  now apply Forall_app in Hl.
Qed.

Section SummaryFacts.

Import PyStr.

Context {F : Type} `{PyFloat F}.

(** With no word in the text the ratio divides by zero, whatever the
    threshold. *)
Lemma generate_summary_no_word (text : string) (max_length : Z) :
  all_space text = true ->
  generate_summary text max_length = Raise ZeroDivisionError.
Proof.
  intros Hs. apply split_nil_iff in Hs.
  unfold generate_summary, true_div. rewrite Hs. reflexivity.
Qed.

(** At most [max_length] words, and at least one: the text comes back as it
    is. *)
Lemma generate_summary_short (text : string) (max_length : Z) :
  let W := Z.of_nat (List.length (split text)) in
  1 <= W <= max_length ->
  generate_summary text max_length
  = Ok {| summary := text;
          original_length := W;
          summary_length := W;
          compression_ratio := fdiv (of_int W) (of_int W) |}.
Proof.
  intros W HW. unfold generate_summary, true_div. fold W.
  assert ((W <=? max_length) = true) as -> by (apply Z.leb_le; lia).
  fold W. assert ((W =? 0) = false) as -> by (apply Z.eqb_neq; lia).
  reflexivity.
Qed.

(** More than [max_length >= 1] words: the first [max_length] words, joined
    by single spaces, then the ellipsis; the summary has [max_length] words. *)
Lemma generate_summary_long (text : string) (max_length : Z) :
  let W := Z.of_nat (List.length (split text)) in
  1 <= max_length < W ->
  generate_summary text max_length
  = Ok {| summary :=
            join " " (firstn (Z.to_nat max_length) (split text)) ++ "...";
          original_length := W;
          summary_length := max_length;
          compression_ratio := fdiv (of_int max_length) (of_int W) |}.
Proof.
  intros W HW. unfold generate_summary, true_div, slice_to. fold W.
  assert ((W <=? max_length) = false) as -> by (apply Z.leb_gt; lia).
  assert ((0 <=? max_length) = true) as -> by (apply Z.leb_le; lia).
  assert ((W =? 0) = false) as -> by (apply Z.eqb_neq; lia).
  assert (List.length
            (split (join " " (firstn (Z.to_nat max_length) (split text)) ++ "..."))
          = Z.to_nat max_length) as Hlen.
  { rewrite split_join_tail_length.
    - rewrite length_firstn. unfold W in HW. lia.
    - apply Forall_firstn_keep, split_words.
    - intros Hnil. apply (f_equal (@List.length string)) in Hnil.
      rewrite length_firstn in Hnil. simpl in Hnil. unfold W in HW. lia.
    - reflexivity. }
  rewrite Hlen, Z2Nat.id by lia. reflexivity.
Qed.

End SummaryFacts.

(** In exact arithmetic the ratio of a truncated summary is below 1. *)
Lemma truncated_ratio_below_one (N W : Z) :
  1 <= N < W -> (fdiv (of_int N) (of_int W) < 1)%Q.
Proof.
  intros HNW. cbn [fdiv of_int exactQ].
  apply Qlt_shift_div_r.
  - change 0%Q with (inject_Z 0). rewrite <- Zlt_Qlt. lia.
  - rewrite Qmult_1_l. rewrite <- Zlt_Qlt. lia.
Qed.

(** ** The endpoints *)

Section EndpointFacts.

Import PyStr.

Context {F : Type} `{PyFloat F}.

Lemma str_exn_http_400 (detail : string) :
  str_exn (HTTPException 400 detail) = ("400: " ++ detail)%string.
Proof. reflexivity. Qed.

Lemma analyze_text_unsupported (request : TextAnalysisRequest) (w : World) :
  ~ In (text_analysis_type request) ["sentiment"; "keywords"; "summary"] ->
  fst (analyze_text request w)
  = failed_envelope "text" w
      (HTTPException 400
         ("Unsupported analysis type: " ++ text_analysis_type request)).
Proof.
  intros Hsel. unfold analyze_text. cbn [utcnow].
  destruct (String.eqb_spec (text_analysis_type request) "sentiment") as [E|_];
    [exfalso; apply Hsel; rewrite E; simpl; tauto|].
  destruct (String.eqb_spec (text_analysis_type request) "keywords") as [E|_];
    [exfalso; apply Hsel; rewrite E; simpl; tauto|].
  destruct (String.eqb_spec (text_analysis_type request) "summary") as [E|_];
    [exfalso; apply Hsel; rewrite E; simpl; tauto|].
  reflexivity.
Qed.

Lemma analyze_image_unsupported (request : ImageAnalysisRequest) (w : World) :
  image_analysis_type request <> "classification" ->
  fst (analyze_image request w)
  = failed_envelope "image" w
      (HTTPException 400
         ("Unsupported analysis type: " ++ image_analysis_type request)).
Proof.
  intros Hsel. unfold analyze_image. cbn [utcnow].
  destruct (String.eqb_spec (image_analysis_type request) "classification")
    as [E|_]; [contradiction|]. reflexivity.
Qed.

Lemma ml_prediction_unknown (request : MLModelRequest) (w : World) :
  model_name request <> "regression" ->
  model_name request <> "classification" ->
  fst (ml_prediction request w)
  = failed_envelope "ml" w
      (HTTPException 400 ("Unknown model: " ++ model_name request)).
Proof.
  intros Hr Hc. unfold ml_prediction. cbn [utcnow].
  destruct (String.eqb_spec (model_name request) "regression") as [E|_];
    [contradiction|].
  destruct (String.eqb_spec (model_name request) "classification") as [E|_];
    [contradiction|]. reflexivity.
Qed.

(** Run [analyze_text] on a request whose selector [Hsel] names and whose
    analysis [Hrun] evaluates. *)
Ltac run_selected Hsel Hrun :=
  unfold analyze_text; cbn [utcnow]; rewrite Hsel;
  cbn [String.eqb Ascii.eqb Bool.eqb andb]; cbv iota; rewrite Hrun.

(** A summary request runs [generate_summary] with the default threshold and
    turns what it raises into a failed envelope. *)
Lemma analyze_text_summary_raises (request : TextAnalysisRequest) (w : World)
    (e : Exn) :
  text_analysis_type request = "summary" ->
  generate_summary (F:=F) (text request) 100 = Raise e ->
  fst (analyze_text request w) = failed_envelope "text" w e.
Proof.
  intros Hsel Hraise. run_selected Hsel Hraise. reflexivity.
Qed.

(** The three supported selectors: the analysis runs with its default
    parameter and its result is wrapped in a completed envelope. *)
Lemma analyze_text_sentiment (request : TextAnalysisRequest) (w : World)
    (r : SentimentResult F) :
  text_analysis_type request = "sentiment" ->
  analyze_sentiment (text request) = Ok r ->
  let resp := fst (analyze_text request w) in
  status resp = "completed" /\ result resp = Some (RSentiment r)
  /\ confidence resp = Some (sentiment_confidence r) /\ error resp = None.
Proof.
  intros Hsel Hr. cbv zeta. run_selected Hsel Hr. repeat split.
Qed.

Lemma analyze_text_keywords (request : TextAnalysisRequest) (w : World)
    (r : KeywordsResult) :
  text_analysis_type request = "keywords" ->
  extract_keywords (text request) 5 = Ok r ->
  let resp := fst (analyze_text request w) in
  status resp = "completed" /\ result resp = Some (RKeywords r)
  /\ confidence resp = None /\ error resp = None.
Proof.
  intros Hsel Hr. cbv zeta. run_selected Hsel Hr. repeat split.
Qed.

Lemma analyze_text_summary (request : TextAnalysisRequest) (w : World)
    (r : SummaryResult F) :
  text_analysis_type request = "summary" ->
  generate_summary (text request) 100 = Ok r ->
  let resp := fst (analyze_text request w) in
  status resp = "completed" /\ result resp = Some (RSummary r)
  /\ confidence resp = None /\ error resp = None.
Proof.
  intros Hsel Hr. cbv zeta. run_selected Hsel Hr. repeat split.
Qed.

Lemma serve_app (before after : list Request) (w : World) :
  serve (F:=F) (before ++ after) w
  = let '(replies, w') := serve before w in
    let '(replies', w'') := serve after w' in
    ((replies ++ replies')%list, w'').
Proof.
  revert w; induction before as [|r before IH]; intros w; cbn [serve app].
  - destruct (serve after w); reflexivity.
  - destruct (handle r w) as [reply w1]. rewrite IH.
    destruct (serve before w1) as [replies w2].
    destruct (serve after w2) as [replies' w3]. reflexivity.
Qed.

End EndpointFacts.

(** ** Claims about the endpoints *)

Section EndpointClaims.

Import PyStr.

(** C2, at the text with no word.  The empty text has [0 <= 100] words, yet
    [generate_summary] does not return it: the compression ratio divides by
    the zero word count and the call raises, so the endpoint answers with a
    failed envelope and no summary. *)
Theorem summary_of_empty_text_raises :
  List.length (split "") = 0%nat
  /\ generate_summary (F:=float) "" 100 = Raise ZeroDivisionError
  /\ forall w : World,
       let resp :=
         fst (analyze_text (F:=float)
                {| text := ""; text_analysis_type := "summary"; options := None |} w) in
       status resp = "failed"
       /\ result resp = None
       /\ error resp = Some "division by zero".
Proof.
  split; [reflexivity|]. split; [reflexivity|].
  intros w. cbv zeta. repeat split.
Qed.

(** C9.  For every text with no word (empty, or whitespace only), the
    summary computation raises [ZeroDivisionError] when it divides by the
    word count, and a summary request for it is answered with a failed
    envelope, not with the text. *)
Theorem summary_without_words_fails {F : Type} `{PyFloat F}
    (request : TextAnalysisRequest) (w : World) :
  text_analysis_type request = "summary" ->
  all_space (text request) = true ->
  List.length (split (text request)) = 0%nat
  /\ generate_summary (F:=F) (text request) 100 = Raise ZeroDivisionError
  /\ let resp := fst (analyze_text (F:=F) request w) in
     status resp = "failed"
     /\ result resp = None
     /\ error resp = Some "division by zero".
Proof.
  intros Hsel Hspace.
  pose proof (generate_summary_no_word (F:=F) (text request) 100 Hspace) as Hr.
  split; [|split].
  - apply split_nil_iff in Hspace. now rewrite Hspace.
  - exact Hr.
  - cbv zeta. rewrite (analyze_text_summary_raises request w _ Hsel Hr).
    repeat split.
Qed.

Lemma summary_without_words_fails_witness :
  List.length (split "   ") = 0%nat
  /\ generate_summary (F:=float) "   " 100 = Raise ZeroDivisionError
  /\ let resp :=
       fst (analyze_text (F:=float)
              {| text := "   "; text_analysis_type := "summary"; options := None |}
              {| clock := fun n => Z.of_nat n; ticks := 0; logged := [];
                 stamp := PyStr.str_of_int |}) in
     status resp = "failed"
     /\ result resp = None
     /\ error resp = Some "division by zero".
Proof.
  apply (summary_without_words_fails (F:=float)
           {| text := "   "; text_analysis_type := "summary"; options := None |});
    reflexivity.
Defined.

(** C5.  A text-analysis request whose [analysis_type] is none of
    [sentiment], [keywords], [summary], and an image-analysis request whose
    [analysis_type] is not [classification], are answered with a failed
    envelope: the status is [failed] and not [completed], there is no
    result, and the error message is not empty. *)
Theorem unsupported_analysis_type_fails {F : Type} `{PyFloat F} :
  (forall (request : TextAnalysisRequest) (w : World),
     ~ In (text_analysis_type request) ["sentiment"; "keywords"; "summary"] ->
     let resp := fst (analyze_text (F:=F) request w) in
     status resp = "failed" /\ status resp <> "completed"
     /\ result resp = None /\ confidence resp = None
     /\ error resp
        = Some ("400: Unsupported analysis type: " ++ text_analysis_type request)%string
     /\ error resp <> None /\ error resp <> Some "")
  /\ (forall (request : ImageAnalysisRequest) (w : World),
     image_analysis_type request <> "classification" ->
     let resp := fst (analyze_image (F:=F) request w) in
     status resp = "failed" /\ status resp <> "completed"
     /\ result resp = None /\ confidence resp = None
     /\ error resp
        = Some ("400: Unsupported analysis type: " ++ image_analysis_type request)%string
     /\ error resp <> None /\ error resp <> Some "").
Proof.
  split; intros request w Hsel; cbv zeta.
  - rewrite (analyze_text_unsupported request w Hsel).
    cbn [failed_envelope status result confidence error].
    rewrite str_exn_http_400. repeat split; discriminate.
  - rewrite (analyze_image_unsupported request w Hsel).
    cbn [failed_envelope status result confidence error].
    rewrite str_exn_http_400. repeat split; discriminate.
Qed.

Lemma unsupported_analysis_type_fails_witness :
  (let resp :=
     fst (analyze_text (F:=float)
            {| text := "hello"; text_analysis_type := "translate"; options := None |}
            {| clock := fun n => Z.of_nat n; ticks := 0; logged := [];
                 stamp := PyStr.str_of_int |}) in
   status resp = "failed" /\ status resp <> "completed"
   /\ result resp = None /\ confidence resp = None
   /\ error resp = Some "400: Unsupported analysis type: translate"
   /\ error resp <> None /\ error resp <> Some "")
  /\ (let resp :=
     fst (analyze_image (F:=float)
            {| image_url := Some "http://example.org/cat.png";
               image_data := None;
               image_analysis_type := "segmentation" |}
            {| clock := fun n => Z.of_nat n; ticks := 0; logged := [];
                 stamp := PyStr.str_of_int |}) in
   status resp = "failed" /\ status resp <> "completed"
   /\ result resp = None /\ confidence resp = None
   /\ error resp = Some "400: Unsupported analysis type: segmentation"
   /\ error resp <> None /\ error resp <> Some "").
Proof.
  split.
  - apply (proj1 (unsupported_analysis_type_fails (F:=float))
             {| text := "hello"; text_analysis_type := "translate"; options := None |}).
    simpl. intuition discriminate.
  - apply (proj2 (unsupported_analysis_type_fails (F:=float))
             {| image_url := Some "http://example.org/cat.png";
                image_data := None;
                image_analysis_type := "segmentation" |}).
    simpl. discriminate.
Defined.

(** C6.  The answer to a prediction request is fixed by [model_name] alone:
    [regression] completes with the prediction 42.5 and the three feature
    importances, [classification] completes with the label [class_A] and the
    three class probabilities, and every other name fails, never completes,
    with an error message that contains "Unknown model".  Neither the input
    data, the parameters nor the clock change the status, the result, the
    confidence or the error. *)
Theorem prediction_depends_on_model_name_only
    (request : MLModelRequest) (w : World) :
  let resp := fst (ml_prediction (F:=float) request w) in
  (model_name request = "regression" ->
     status resp = "completed"
     /\ result resp
        = Some (RRegression
                  {| regression_prediction := 42.5%float;
                     feature_importance := [("feature1", 0.3%float);
                                            ("feature2", 0.25%float);
                                            ("feature3", 0.45%float)] |})
     /\ error resp = None)
  /\ (model_name request = "classification" ->
     status resp = "completed"
     /\ result resp
        = Some (RClassification
                  {| classification_prediction := "class_A";
                     probabilities := [("class_A", 0.7%float);
                                       ("class_B", 0.2%float);
                                       ("class_C", 0.1%float)] |})
     /\ error resp = None)
  /\ (model_name request <> "regression" ->
      model_name request <> "classification" ->
     status resp = "failed" /\ status resp <> "completed"
     /\ result resp = None
     /\ exists message,
          error resp = Some message
          /\ contains "Unknown model" message = true)
  /\ (forall (request' : MLModelRequest) (w' : World),
     model_name request' = model_name request ->
     let resp' := fst (ml_prediction (F:=float) request' w') in
     status resp' = status resp /\ result resp' = result resp
     /\ confidence resp' = confidence resp /\ error resp' = error resp).
Proof.
  cbv zeta. split; [|split; [|split]].
  - intros Hm. unfold ml_prediction. cbn [utcnow]. rewrite Hm.
    repeat split.
  - intros Hm. unfold ml_prediction. cbn [utcnow]. rewrite Hm.
    repeat split.
  - intros Hr Hc. rewrite (ml_prediction_unknown request w Hr Hc).
    cbn [failed_envelope status result error]. rewrite str_exn_http_400.
    split; [reflexivity|]. split; [discriminate|]. split; [reflexivity|].
    eexists. split; [reflexivity|].
    apply contains_iff. exists "400: ", (": " ++ model_name request)%string.
    reflexivity.
  - intros request' w' Hm. unfold ml_prediction. cbn [utcnow]. rewrite Hm.
    destruct (model_name request =? "regression")%string; [repeat split|].
    destruct (model_name request =? "classification")%string; repeat split.
Qed.

Lemma prediction_depends_on_model_name_only_witness :
  let w := {| clock := fun n => Z.of_nat n; ticks := 0; logged := [];
                 stamp := PyStr.str_of_int |} in
  let reg := {| model_name := "regression"; input_data := []; parameters := None |} in
  let cls := {| model_name := "classification";
                input_data := [("x", ANum (1 # 2))]; parameters := None |} in
  let unk := {| model_name := "unknown_model"; input_data := []; parameters := None |} in
  (status (fst (ml_prediction (F:=float) reg w)) = "completed"
   /\ result (fst (ml_prediction (F:=float) reg w))
      = Some (RRegression
                {| regression_prediction := 42.5%float;
                   feature_importance := [("feature1", 0.3%float);
                                          ("feature2", 0.25%float);
                                          ("feature3", 0.45%float)] |})
   /\ error (fst (ml_prediction (F:=float) reg w)) = None)
  /\ (status (fst (ml_prediction (F:=float) cls w)) = "completed"
   /\ result (fst (ml_prediction (F:=float) cls w))
      = Some (RClassification
                {| classification_prediction := "class_A";
                   probabilities := [("class_A", 0.7%float);
                                     ("class_B", 0.2%float);
                                     ("class_C", 0.1%float)] |})
   /\ error (fst (ml_prediction (F:=float) cls w)) = None)
  /\ (status (fst (ml_prediction (F:=float) unk w)) = "failed"
   /\ status (fst (ml_prediction (F:=float) unk w)) <> "completed"
   /\ result (fst (ml_prediction (F:=float) unk w)) = None
   /\ exists message,
        error (fst (ml_prediction (F:=float) unk w)) = Some message
        /\ contains "Unknown model" message = true).
Proof.
  intros w reg cls unk. split; [|split].
  - apply (proj1 (prediction_depends_on_model_name_only reg w)). reflexivity.
  - apply (proj1 (proj2 (prediction_depends_on_model_name_only cls w))).
    reflexivity.
  - apply (proj1 (proj2 (proj2 (prediction_depends_on_model_name_only unk w))));
      discriminate.
Defined.

(** C7.  Image classification does not look at the image: whatever
    [image_url] and [image_data] two classification requests carry, and
    whenever they are served, both complete with the same three
    label/confidence pairs, the same dominant colour and the same quality
    tag. *)
Theorem image_classification_ignores_image
    (image_url1 image_data1 image_url2 image_data2 : option string)
    (w1 w2 : World) :
  let resp1 :=
    fst (analyze_image (F:=float)
           {| image_url := image_url1; image_data := image_data1;
              image_analysis_type := "classification" |} w1) in
  let resp2 :=
    fst (analyze_image (F:=float)
           {| image_url := image_url2; image_data := image_data2;
              image_analysis_type := "classification" |} w2) in
  result resp1 = result resp2
  /\ status resp1 = status resp2
  /\ confidence resp1 = confidence resp2
  /\ error resp1 = error resp2
  /\ status resp1 = "completed"
  /\ result resp1
     = Some (RImage
               {| predictions := [("cat", 0.85%float);
                                  ("animal", 0.92%float);
                                  ("pet", 0.78%float)];
                  dominant_color := "#8B4513";
                  image_quality := "high" |}).
Proof. cbv zeta. repeat split. Qed.

(** C8.  Whatever requests were served before, and in whatever world,
    [GET /api/v1/models] is answered with the same catalog of five
    descriptors, and answering it changes nothing. *)
Theorem models_catalog_is_fixed {F : Type} `{PyFloat F}
    (history : list Request) (w : World) :
  (exists (replies : list (Reply F)) (w' : World),
     serve history w = (replies, w')
     /\ serve (history ++ [GetModels]) w
        = ((replies ++ [ModelsReply list_models])%list, w'))
  /\ List.length list_models = 5%nat
  /\ map (fun m => (name m, type m, description m)) list_models
     = [("sentiment_analyzer", "text_analysis", "Analyzes sentiment in text");
        ("keyword_extractor", "text_analysis", "Extracts keywords from text");
        ("image_classifier", "computer_vision", "Classifies images");
        ("regression_model", "regression", "Predicts continuous values");
        ("classification_model", "classification", "Predicts categorical values")].
Proof.
  split; [|split; reflexivity].
  rewrite serve_app. destruct (serve history w) as [replies w'].
  exists replies, w'. split; reflexivity.
Qed.

End EndpointClaims.

(** ** Keywords *)

Section KeywordFacts.

Import PyStr.

Lemma rank_lt_length (l : list string) (w : string) :
  In w l -> (rank l w < List.length l)%nat.
Proof.
  induction l as [|x l IH]; simpl; [tauto|]. intros Hin.
  destruct (String.eqb_spec x w) as [->|Hne]; [lia|].
  destruct Hin as [->|Hin]; [congruence|]. apply IH in Hin. lia.
Qed.

Lemma rank_app_in (l l' : list string) (w : string) :
  In w l -> rank (l ++ l') w = rank l w.
Proof.
  induction l as [|x l IH]; simpl; [tauto|]. intros Hin.
  destruct (String.eqb_spec x w) as [->|Hne]; [reflexivity|].
  destruct Hin as [->|Hin]; [congruence|]. now rewrite IH.
Qed.

Lemma rank_app_new (l : list string) (w : string) :
  ~ In w l -> rank (l ++ [w]) w = List.length l.
Proof.
  induction l as [|x l IH]; simpl; intros Hnin.
  - now rewrite String.eqb_refl.
  - destruct (String.eqb_spec x w) as [->|Hne]; [tauto|].
    rewrite IH; tauto.
Qed.

Lemma StronglySorted_irrefl_NoDup {A : Type} (R : A -> A -> Prop) (l : list A) :
  (forall a, ~ R a a) -> StronglySorted R l -> NoDup l.
Proof.
  intros Hirr. induction 1 as [|x l Hs IH Hall]; constructor; [|assumption].
  intros Hin. rewrite Forall_forall in Hall. exact (Hirr x (Hall x Hin)).
Qed.

Lemma StronglySorted_change {A : Type} (R R' : A -> A -> Prop) (l : list A) :
  (forall a b, In a l -> In b l -> R a b -> R' a b) ->
  StronglySorted R l -> StronglySorted R' l.
Proof.
  intros Himp Hs. induction Hs as [|x l Hs IH Hall]; constructor.
  - apply IH. intros a b Ha Hb. apply Himp; now right.
  - rewrite Forall_forall in *. intros b Hb.
    apply Himp; [now left | now right | now apply Hall].
Qed.

Lemma StronglySorted_snoc {A : Type} (R : A -> A -> Prop) (l : list A) (x : A) :
  StronglySorted R l -> Forall (fun a => R a x) l ->
  StronglySorted R (l ++ [x]).
Proof.
  induction 1 as [|y l Hs IH Hall]; intros Hx; simpl.
  - constructor; constructor.
  - inversion Hx as [|? ? Hyx Hlx]; subst. constructor; [now apply IH|].
    apply Forall_app. split; [assumption | now constructor].
Qed.

Lemma StronglySorted_firstn {A : Type} (R : A -> A -> Prop) (n : nat) (l : list A) :
  StronglySorted R l -> StronglySorted R (firstn n l).
Proof.
  revert n; induction l as [|x l IH]; intros [|n] Hs; simpl;
    try constructor.
  - apply IH. now inversion Hs.
  - apply Forall_firstn_keep. now inversion Hs.
Qed.

(** *** The dictionary *)

Lemma dict_set_known (d : list (string * Z)) (k : string) (v : Z) :
  In k (map fst d) -> map fst (dict_set d k v) = map fst d.
Proof.
  induction d as [|[k' v'] d IH]; simpl; [tauto|]. intros Hin.
  destruct (String.eqb_spec k' k) as [->|Hne]; [reflexivity|]. simpl.
  destruct Hin as [->|Hin]; [congruence|]. now rewrite IH.
Qed.

Lemma dict_set_new (d : list (string * Z)) (k : string) (v : Z) :
  ~ In k (map fst d) -> dict_set d k v = (d ++ [(k, v)])%list.
Proof.
  induction d as [|[k' v'] d IH]; simpl; intros Hnin; [reflexivity|].
  destruct (String.eqb_spec k' k) as [->|Hne]; [tauto|].
  rewrite IH; tauto.
Qed.

Lemma dict_set_items (d : list (string * Z)) (k : string) (v : Z) w f :
  NoDup (map fst d) ->
  In (w, f) (dict_set d k v) ->
  (w = k /\ f = v) \/ (w <> k /\ In (w, f) d).
Proof.
  induction d as [|[k' v'] d IH]; simpl; intros Hnd Hin.
  - destruct Hin as [[= <- <-]|[]]. now left.
  - inversion Hnd as [|? ? Hk' Hnd']; subst.
    destruct (String.eqb_spec k' k) as [->|Hne].
    + destruct Hin as [[= <- <-]|Hin]; [now left|].
      right. split; [|now right].
      intros ->. apply Hk'. now apply (in_map fst) in Hin.
    + destruct Hin as [[= <- <-]|Hin]; [right; split; [assumption | now left]|].
      destruct (IH Hnd' Hin) as [?|[? ?]]; [now left | right; split; auto].
Qed.

Lemma dict_get_known (d : list (string * Z)) (k : string) (f default : Z) :
  NoDup (map fst d) -> In (k, f) d -> dict_get d k default = f.
Proof.
  induction d as [|[k' v'] d IH]; simpl; intros Hnd Hin; [tauto|].
  inversion Hnd as [|? ? Hk' Hnd']; subst.
  destruct (String.eqb_spec k' k) as [->|Hne].
  - destruct Hin as [[= <-]|Hin]; [reflexivity|].
    exfalso. apply Hk'. now apply (in_map fst) in Hin.
  - destruct Hin as [[= <- <-]|Hin]; [congruence|]. now apply IH.
Qed.

Lemma dict_get_new (d : list (string * Z)) (k : string) (default : Z) :
  ~ In k (map fst d) -> dict_get d k default = default.
Proof.
  induction d as [|[k' v'] d IH]; simpl; intros Hnin; [reflexivity|].
  destruct (String.eqb_spec k' k) as [->|Hne]; [tauto|]. apply IH. tauto.
Qed.

Lemma counted_NoDup (l : list string) (d : list (string * Z)) :
  counted l d -> NoDup (map fst d).
Proof.
  intros (Hs & _ & _).
  apply (StronglySorted_irrefl_NoDup _ _ (fun a => Nat.lt_irrefl (rank l a)) Hs).
Qed.

Lemma count_occ_snoc (l : list string) (x w : string) :
  count_occ string_dec (l ++ [x]) w
  = (count_occ string_dec l w + if string_dec x w then 1 else 0)%nat.
Proof.
  rewrite count_occ_app. cbn [count_occ]. now destruct (string_dec x w).
Qed.

Lemma counted_step (l : list string) (d : list (string * Z)) (x : string) :
  counted l d -> counted (l ++ [x]) (count_word d x).
Proof.
  intros Hd. pose proof (counted_NoDup l d Hd) as Hnd.
  destruct Hd as (Hs & Hkeys & Hcnt).
  assert (forall a, In a (map fst d) -> rank (l ++ [x]) a = rank l a) as Hrank.
  { intros a Ha. apply rank_app_in. now apply Hkeys. }
  assert (StronglySorted (fun a b => (rank (l ++ [x]) a < rank (l ++ [x]) b)%nat)
            (map fst d)) as Hs'.
  { apply (StronglySorted_change _ _ _ (fun a b Ha Hb Hab =>
      eq_ind_r (fun n => (n < _)%nat)
        (eq_ind_r (fun n => (_ < n)%nat) Hab (Hrank b Hb)) (Hrank a Ha)) Hs). }
  unfold count_word. destruct (len x >? 3) eqn:Hlong.
  - destruct (in_dec string_dec x (map fst d)) as [Hin|Hnin].
    + (* a key already there: its count goes up by one *)
      split; [|split].
      * now rewrite dict_set_known.
      * intros w. rewrite dict_set_known by assumption. rewrite Hkeys, in_app_iff.
        simpl. split; [tauto|]. intros [[?|[<-|[]]] ?]; [tauto|].
        now apply Hkeys.
      * intros w f Hwf. apply dict_set_items in Hwf; [|assumption].
        rewrite count_occ_snoc.
        destruct Hwf as [[-> ->]|[Hne Hwf]].
        -- apply in_map_iff in Hin as ([k f0] & Hk & Hin). simpl in Hk. subst k.
           rewrite (dict_get_known d x f0 0 Hnd Hin), (Hcnt x f0 Hin).
           destruct (string_dec x x); [lia | congruence].
        -- rewrite (Hcnt w f Hwf).
           destruct (string_dec x w); [congruence | lia].
    + (* a new key: it goes last, with count one *)
      assert (~ In x l) as Hxl by (intros Hxl; apply Hnin, Hkeys; auto).
      rewrite dict_set_new, dict_get_new by assumption.
      split; [|split].
      * rewrite map_app. cbn [map fst]. apply StronglySorted_snoc; [assumption|].
        apply Forall_forall. intros a Ha. rewrite (Hrank a Ha).
        rewrite rank_app_new by assumption. apply rank_lt_length.
        now apply Hkeys.
      * intros w. rewrite map_app, !in_app_iff, Hkeys. simpl.
        split; [intros [[? ?]|[<-|[]]]; auto | intros [[?|[<-|[]]] ?]; auto].
      * intros w f Hwf. apply in_app_iff in Hwf as [Hwf|[[= <- <-]|[]]];
          rewrite count_occ_snoc.
        -- rewrite (Hcnt w f Hwf). destruct (string_dec x w) as [<-|]; [|lia].
           exfalso. apply Hnin. now apply (in_map fst) in Hwf.
        -- rewrite (count_occ_not_In string_dec l x) in Hxl. rewrite Hxl.
           destruct (string_dec x x); [reflexivity | congruence].
  - (* a short word: nothing changes *)
    split; [assumption|split].
    + intros w. rewrite Hkeys, in_app_iff. simpl.
      split; [tauto|]. intros [[?|[<-|[]]] Hw]; [tauto | congruence].
    + intros w f Hwf. rewrite count_occ_snoc, (Hcnt w f Hwf).
      destruct (string_dec x w) as [<-|]; [|lia].
      apply (in_map fst) in Hwf. apply Hkeys in Hwf. simpl in Hwf.
      destruct Hwf; congruence.
Qed.

Lemma counted_fold (ws l : list string) (d : list (string * Z)) :
  counted l d -> counted (l ++ ws) (fold_left count_word ws d).
Proof.
  revert l d; induction ws as [|x ws IH]; intros l d Hd; simpl.
  - now rewrite app_nil_r.
  - change (x :: ws) with ([x] ++ ws)%list. rewrite app_assoc.
    apply IH. now apply counted_step.
Qed.

Lemma counted_all (ws : list string) :
  counted ws (fold_left count_word ws []).
Proof.
  apply (counted_fold ws [] []). split; [constructor|]. split.
  - intros w. simpl. tauto.
  - intros w f [].
Qed.

(** *** The sort *)

Lemma insert_desc_perm (x : string * Z) (l : list (string * Z)) :
  Permutation (insert_desc x l) (x :: l).
Proof.
  induction l as [|y l IH]; simpl; [reflexivity|].
  destruct (snd x <? snd y); [|reflexivity].
  rewrite IH. apply perm_swap.
Qed.

Lemma sorted_desc_perm (l : list (string * Z)) :
  Permutation (sorted_desc l) l.
Proof.
  induction l as [|x l IH]; simpl; [reflexivity|].
  rewrite insert_desc_perm. now constructor.
Qed.

Lemma insert_desc_sorted (tokens : list string) (x : string * Z)
    (l : list (string * Z)) :
  StronglySorted (by_freq_then_rank tokens) l ->
  Forall (fun y => (rank tokens (fst x) < rank tokens (fst y))%nat) l ->
  StronglySorted (by_freq_then_rank tokens) (insert_desc x l).
Proof.
  induction 1 as [|y l Hs IH Hall]; intros Hx; simpl.
  - constructor; constructor.
  - inversion Hx as [|? ? Hxy Hxl]; subst.
    destruct (snd x <? snd y) eqn:Hlt.
    + apply Z.ltb_lt in Hlt. constructor; [now apply IH|].
      apply (Permutation_Forall (Permutation_sym (insert_desc_perm x l))).
      constructor; [now left | assumption].
    + apply Z.ltb_ge in Hlt. constructor; [now constructor|].
      constructor.
      * unfold by_freq_then_rank. destruct (Z.eq_dec (snd x) (snd y)); [auto|lia].
      * rewrite Forall_forall in *. intros z Hz.
        specialize (Hall z Hz). specialize (Hxl z Hz).
        unfold by_freq_then_rank in *.
        destruct (Z.eq_dec (snd x) (snd z)); [auto | left; lia].
Qed.

Lemma sorted_desc_sorted (tokens : list string) (l : list (string * Z)) :
  StronglySorted (fun a b => (rank tokens a < rank tokens b)%nat) (map fst l) ->
  StronglySorted (by_freq_then_rank tokens) (sorted_desc l).
Proof.
  induction l as [|x l IH]; simpl; intros Hs; [constructor|].
  inversion Hs as [|? ? Hs' Hall]; subst.
  apply insert_desc_sorted; [now apply IH|].
  apply (Permutation_Forall (Permutation_sym (sorted_desc_perm l))).
  rewrite Forall_map in Hall. exact Hall.
Qed.

Lemma StronglySorted_app_inv {A : Type} (R : A -> A -> Prop) (l1 l2 : list A) :
  StronglySorted R (l1 ++ l2) ->
  forall a b, In a l1 -> In b l2 -> R a b.
Proof.
  induction l1 as [|x l1 IH]; simpl; intros Hs a b Ha Hb; [tauto|].
  inversion Hs as [|? ? Hs' Hall]; subst.
  destruct Ha as [->|Ha]; [|now apply (IH Hs')].
  rewrite Forall_forall in Hall. apply Hall, in_or_app. now right.
Qed.

Lemma In_firstn_in {A : Type} (n : nat) (l : list A) (x : A) :
  In x (firstn n l) -> In x l.
Proof.
  intros Hin. rewrite <- (firstn_skipn n l). apply in_or_app. now left.
Qed.

Lemma NoDup_firstn {A : Type} (n : nat) (l : list A) :
  NoDup l -> NoDup (firstn n l).
Proof.
  intros Hnd. rewrite <- (firstn_skipn n l) in Hnd.
  now apply NoDup_app_remove_r in Hnd.
Qed.

(** C4.  [keywords] lowers the text and splits it on whitespace; the words
    it returns are distinct tokens longer than 3 characters, each with the
    number of times it occurs among the tokens; there are at most
    [max_keywords] of them; they come by non-increasing frequency, and
    among equal frequencies in the order in which they were first seen; and
    a long token that is left out occurs no more often than any word
    returned. *)
Theorem keywords_top_by_frequency (text : string) (max_keywords : Z) :
  0 <= max_keywords ->
  let tokens := split (lower text) in
  exists r : KeywordsResult,
    extract_keywords text max_keywords = Ok r
    /\ keywords r = map fst (frequencies r)
    /\ Z.of_nat (List.length (keywords r)) <= max_keywords
    /\ NoDup (keywords r)
    /\ (forall w f, In (w, f) (frequencies r) ->
          In w tokens /\ len w > 3
          /\ f = Z.of_nat (count_occ string_dec tokens w))
    /\ StronglySorted (fun a b => snd a >= snd b) (frequencies r)
    /\ StronglySorted (by_freq_then_rank tokens) (frequencies r)
    /\ (forall w, In w tokens -> len w > 3 -> ~ In w (keywords r) ->
          Z.of_nat (List.length (keywords r)) = max_keywords
          /\ forall w' f', In (w', f') (frequencies r) ->
               Z.of_nat (count_occ string_dec tokens w) <= f').
Proof.
  intros Hmax tokens. unfold extract_keywords, slice_to. fold tokens.
  assert ((0 <=? max_keywords) = true) as -> by (apply Z.leb_le; lia).
  set (d := fold_left count_word tokens []).
  set (k := Z.to_nat max_keywords).
  pose proof (counted_all tokens) as Hd. fold d in Hd.
  pose proof (counted_NoDup tokens d Hd) as Hnd.
  destruct Hd as (Hs & Hkeys & Hcnt).
  pose proof (sorted_desc_perm d) as Hperm.
  pose proof (sorted_desc_sorted tokens d Hs) as Hsorted.
  eexists. split; [reflexivity|]. cbn [keywords frequencies].
  split; [reflexivity|].
  assert (forall a, In a (firstn k (sorted_desc d)) -> In a d) as Hsub.
  { intros a Ha. apply (Permutation_in a Hperm). now apply In_firstn_in in Ha. }
  split; [|split; [|split; [|split; [|split]]]].
  - rewrite length_map. pose proof (firstn_le_length k (sorted_desc d)). lia.
  - rewrite <- firstn_map. apply NoDup_firstn.
    apply (Permutation_NoDup (Permutation_map fst (Permutation_sym Hperm)) Hnd).
  - intros w f Hwf. apply Hsub in Hwf.
    pose proof (in_map fst _ _ Hwf) as Hw. apply Hkeys in Hw as [Hin Hlong].
    split; [exact Hin|]. split; [now apply Z.gtb_gt in Hlong|].
    now apply Hcnt.
  - apply (StronglySorted_change (by_freq_then_rank tokens)).
    + intros a b _ _ [Hlt|[Heq _]]; lia.
    + now apply StronglySorted_firstn.
  - now apply StronglySorted_firstn.
  - intros w Hin Hlong Hout.
    assert (In w (map fst d)) as Hw
      by (apply Hkeys; split; [assumption | now apply Z.gtb_gt]).
    apply in_map_iff in Hw as ([w0 c] & Hfst & Hwc). simpl in Hfst. subst w0.
    pose proof (Hcnt w c Hwc) as Hc.
    apply (Permutation_in _ (Permutation_sym Hperm)) in Hwc.
    rewrite <- (firstn_skipn k (sorted_desc d)) in Hwc, Hsorted.
    apply in_app_or in Hwc as [Hwc|Hwc];
      [exfalso; apply Hout; now apply (in_map fst) in Hwc|].
    split.
    + rewrite length_map.
      destruct (Nat.le_gt_cases (List.length (sorted_desc d)) k) as [Hle|Hgt].
      * rewrite skipn_all2 in Hwc by assumption. destruct Hwc.
      * rewrite firstn_length_le by lia. unfold k. lia.
    + intros w' f' Hwf'.
      pose proof (StronglySorted_app_inv _ _ _ Hsorted _ _ Hwf' Hwc) as Hord.
      unfold by_freq_then_rank in Hord. simpl in Hord. lia.
Qed.

Lemma keywords_top_by_frequency_witness :
  exists r : KeywordsResult,
    extract_keywords "The quick brown fox and the QUICK brown dog saw a Brown bear" 2
    = Ok r
    /\ keywords r = ["brown"; "quick"]
    /\ frequencies r = [("brown", 3); ("quick", 2)].
Proof.
  destruct (keywords_top_by_frequency
              "The quick brown fox and the QUICK brown dog saw a Brown bear" 2
              ltac:(lia)) as (r & Hr & _).
  exists r. split; [exact Hr|].
  vm_compute in Hr. injection Hr as <-. split; reflexivity.
Defined.

End KeywordFacts.

(** * Further properties of the analyses *)

(** ** Case and whitespace *)

Section CaseFacts.

Import PyStr.

Lemma lower_char_idem (c : ascii) : lower_char (lower_char c) = lower_char c.
Proof. destruct c as [[] [] [] [] [] [] [] []]; reflexivity. Qed.

Lemma isspace_lower_char (c : ascii) : isspace (lower_char c) = isspace c.
Proof. destruct c as [[] [] [] [] [] [] [] []]; reflexivity. Qed.

Lemma lower_idem (s : string) : lower (lower s) = lower s.
Proof.
  induction s as [|c s IH]; simpl; [reflexivity|].
  now rewrite lower_char_idem, IH.
Qed.

Lemma flush_lower (cur : string) : flush (lower cur) = map lower (flush cur).
Proof. destruct cur; reflexivity. Qed.

(** Lowering a text lowers each of its words and moves no word boundary. *)
Lemma split_from_lower (s cur : string) :
  split_from (lower cur) (lower s) = map lower (split_from cur s).
Proof.
  revert cur; induction s as [|c s IH]; intros cur; simpl.
  - apply flush_lower.
  - rewrite isspace_lower_char. destruct (isspace c).
    + rewrite map_app, flush_lower. f_equal. apply (IH "").
    + rewrite <- IH, lower_append. reflexivity.
Qed.

Lemma split_lower (s : string) : split (lower s) = map lower (split s).
Proof. apply (split_from_lower s ""). Qed.

Lemma all_space_append (a b : string) :
  all_space (a ++ b) = all_space a && all_space b.
Proof.
  induction a as [|c a IH]; simpl; [reflexivity|].
  now rewrite IH, andb_assoc.
Qed.

Lemma all_space_lower (s : string) : all_space (lower s) = all_space s.
Proof.
  induction s as [|c s IH]; simpl; [reflexivity|].
  now rewrite isspace_lower_char, IH.
Qed.

(** A word is no part of a text made of whitespace. *)
Lemma contains_in_whitespace (w s : string) :
  is_word w -> all_space s = true -> contains w s = false.
Proof.
  intros [Hne Hw] Hs. destruct (contains w s) eqn:Hc; [|reflexivity].
  apply contains_iff in Hc as (l & r & ->).
  rewrite !all_space_append in Hs.
  apply andb_prop in Hs as [_ Hs]. apply andb_prop in Hs as [Hs _].
  destruct w as [|c w]; [congruence|]. simpl in Hw, Hs.
  apply andb_prop in Hw as [Hc _]. apply andb_prop in Hs as [Hc' _].
  rewrite Hc' in Hc. discriminate.
Qed.

Lemma count_present_in_whitespace (words : list string) (s : string) :
  Forall is_word words -> all_space s = true -> count_present words s = 0.
Proof.
  intros Hwords Hs. rewrite count_present_length.
  induction Hwords as [|w words Hw _ IH]; [reflexivity|].
  cbn [filter]. now rewrite (contains_in_whitespace w s Hw Hs).
Qed.

Lemma positive_words_are_words : Forall is_word positive_words.
Proof. repeat constructor; discriminate. Qed.

Lemma negative_words_are_words : Forall is_word negative_words.
Proof. repeat constructor; discriminate. Qed.

(** A match stays a match when text is put around it. *)
Lemma contains_extend (w a s b : string) :
  contains w s = true -> contains w (a ++ s ++ b) = true.
Proof.
  intros Hc. apply contains_iff in Hc as (l & r & ->). apply contains_iff.
  exists (a ++ l)%string, (r ++ b)%string. now rewrite !append_assoc.
Qed.

Lemma filter_length_mono {A : Type} (f g : A -> bool) (l : list A) :
  (forall x, f x = true -> g x = true) ->
  (List.length (filter f l) <= List.length (filter g l))%nat.
Proof.
  intros Hfg. induction l as [|x l IH]; simpl; [lia|].
  destruct (f x) eqn:Hf.
  - rewrite (Hfg x Hf). simpl. lia.
  - destruct (g x); simpl; lia.
Qed.

End CaseFacts.

(** ** Sentiment, beyond the majority rule *)

Section SentimentMore.

Import PyStr.

(** X1.  A text made of whitespace only (the empty text too) has no word and
    no dictionary match; the divisor is then taken as 1, nothing is raised,
    and the result is [neutral] with confidence 0.6 and scores 0, 0 and 1. *)
Theorem sentiment_of_blank_text (text : string) :
  all_space text = true ->
  analyze_sentiment (F:=float) text
  = Ok {| sentiment := "neutral";
          sentiment_confidence := 0.6%float;
          scores := {| positive := 0%float;
                       negative := 0%float;
                       neutral := 1%float |} |}.
Proof.
  intros Hs. rewrite analyze_sentiment_unfold.
  assert (all_space (lower text) = true) as Hl by now rewrite all_space_lower.
  rewrite (count_present_in_whitespace _ _ positive_words_are_words Hl).
  rewrite (count_present_in_whitespace _ _ negative_words_are_words Hl).
  apply split_nil_iff in Hs. rewrite Hs. reflexivity.
Qed.

Lemma sentiment_of_blank_text_witness :
  exists r : SentimentResult float,
    analyze_sentiment "  " = Ok r
    /\ sentiment r = "neutral"
    /\ neutral (scores r) = 1%float.
Proof.
  eexists. split; [apply (sentiment_of_blank_text "  "); reflexivity|].
  split; reflexivity.
Defined.

(** X2.  Sentiment analysis does not see case: two texts with the same
    lowering get the same result, scores included, in any arithmetic. *)
Theorem sentiment_ignores_case {F : Type} `{PyFloat F} (text1 text2 : string) :
  lower text1 = lower text2 ->
  analyze_sentiment (F:=F) text1 = analyze_sentiment text2.
Proof.
  intros Hl. rewrite !analyze_sentiment_unfold, Hl.
  assert (List.length (split text1) = List.length (split text2)) as ->.
  { rewrite <- (length_map lower (split text1)), <- (length_map lower (split text2)).
    now rewrite <- !split_lower, Hl. }
  reflexivity.
Qed.

Lemma sentiment_ignores_case_witness :
  analyze_sentiment (F:=float) "What a GREAT day, I Love it"
  = analyze_sentiment "what a great day, i love it".
Proof. apply sentiment_ignores_case. reflexivity. Defined.

(** X3.  Putting text before or after a text never lowers a dictionary
    count: every dictionary word found in the text is found in the longer
    one. *)
Theorem count_present_grows (words : list string) (before text after : string) :
  count_present words (lower text)
  <= count_present words (lower (before ++ text ++ after)).
Proof.
  rewrite !count_present_length, !lower_append.
  apply inj_le, filter_length_mono. intros w. apply contains_extend.
Qed.

Lemma exact_quotient_sign (a n : Z) :
  1 <= n ->
  ((0 <= inject_Z a / inject_Z n)%Q <-> 0 <= a)
  /\ ((1 - inject_Z a / inject_Z n < 0)%Q <-> n < a).
Proof.
  intros Hn. destruct n as [|n|n]; try lia.
  unfold Qle, Qlt, Qminus, Qplus, Qopp, Qdiv, Qmult, Qinv, inject_Z.
  cbn [Qnum Qden]. rewrite ?Pos.mul_1_l, ?Pos.mul_1_r, ?Z.mul_1_r, ?Z.mul_1_l.
  split; split; lia.
Qed.

(** X18.  In exact arithmetic the positive and the negative score are never
    negative, and the neutral score is negative exactly when the two
    dictionary counts together exceed the word count (taken as at least
    1), which substring matching allows. *)
Theorem neutral_score_negative_iff (text : string) :
  let p := count_present positive_words (lower text) in
  let q := count_present negative_words (lower text) in
  let n := Z.max (Z.of_nat (List.length (split text))) 1 in
  exists r : SentimentResult Q,
    analyze_sentiment text = Ok r
    /\ (0 <= positive (scores r))%Q
    /\ (0 <= negative (scores r))%Q
    /\ ((neutral (scores r) < 0)%Q <-> n < p + q).
Proof.
  intros p q n. eexists. split; [apply analyze_sentiment_unfold|].
  cbn [scores positive negative neutral fdiv fsub of_int exactQ]. fold p q n.
  assert (1 <= n) as Hn by (unfold n; lia).
  pose proof (count_present_bounds positive_words (lower text)) as Bp.
  pose proof (count_present_bounds negative_words (lower text)) as Bq.
  fold p in Bp. fold q in Bq.
  split; [apply (exact_quotient_sign p n Hn); lia|].
  split; [apply (exact_quotient_sign q n Hn); lia|].
  apply (exact_quotient_sign (p + q) n Hn).
Qed.

End SentimentMore.

(** ** Summary, for texts that have a word *)

Section SummaryMore.

Import PyStr.

(** X4.  A text of at least one and at most [max_length] words is its own
    summary: it comes back character for character and both word counts
    equal the number of its words, in any arithmetic; the compression ratio
    is that number divided by itself, which is 1 in exact arithmetic. *)
Theorem summary_of_short_text {F : Type} `{PyFloat F}
    (text : string) (max_length : Z) :
  let W := Z.of_nat (List.length (split text)) in
  1 <= W <= max_length ->
  (exists r : SummaryResult F,
     generate_summary text max_length = Ok r
     /\ summary r = text
     /\ original_length r = W
     /\ summary_length r = W
     /\ compression_ratio r = fdiv (of_int W) (of_int W))
  /\ (exists r : SummaryResult Q,
     generate_summary text max_length = Ok r
     /\ (compression_ratio r == 1)%Q).
Proof.
  intros W HW. split.
  - eexists. split; [now apply generate_summary_short|]. repeat split.
  - eexists. split; [now apply generate_summary_short|].
    cbn [compression_ratio fdiv of_int exactQ]. field.
    change 0%Q with (inject_Z 0). rewrite inject_Z_injective. fold W. lia.
Qed.

Lemma summary_of_short_text_witness :
  (exists r : SummaryResult float,
     generate_summary "  two   words " 100 = Ok r
     /\ summary r = "  two   words "
     /\ original_length r = 2
     /\ summary_length r = 2
     /\ compression_ratio r = (2 / 2)%float)
  /\ (exists r : SummaryResult Q,
     generate_summary "  two   words " 100 = Ok r
     /\ (compression_ratio r == 1)%Q).
Proof.
  exact (summary_of_short_text (F:=float) "  two   words " 100
           ltac:(vm_compute; split; discriminate)).
Defined.

(** X5.  A text of more than [max_length >= 1] words is cut to its first
    [max_length] words, joined by single spaces and followed by "...".
    Split again, the summary gives these words back with "..." glued to the
    last one, so its word count is [max_length]; the compression ratio is
    [max_length] divided by the number of words, below 1 in exact
    arithmetic. *)
Theorem summary_of_long_text {F : Type} `{PyFloat F}
    (text : string) (max_length : Z) :
  let words := split text in
  let W := Z.of_nat (List.length words) in
  let kept := firstn (Z.to_nat max_length) words in
  1 <= max_length < W ->
  (exists r : SummaryResult F,
     generate_summary text max_length = Ok r
     /\ summary r = (join " " kept ++ "...")%string
     /\ split (summary r)
        = (removelast kept ++ [last kept "" ++ "..."]%string)%list
     /\ original_length r = W
     /\ summary_length r = max_length
     /\ compression_ratio r = fdiv (of_int max_length) (of_int W))
  /\ (exists r : SummaryResult Q,
     generate_summary text max_length = Ok r
     /\ (compression_ratio r < 1)%Q).
Proof.
  intros words W kept HW. split.
  - eexists. split; [now apply generate_summary_long|].
    cbn [summary original_length summary_length compression_ratio].
    split; [reflexivity|]. split; [|repeat split].
    apply split_join_tail; [apply Forall_firstn_keep, split_words| |reflexivity].
    intros Hnil. apply (f_equal (@List.length string)) in Hnil.
    unfold kept, words in Hnil. rewrite length_firstn in Hnil.
    cbn [List.length] in Hnil. unfold W, words in HW. lia.
  - eexists. split; [now apply generate_summary_long|].
    now apply truncated_ratio_below_one.
Qed.

Lemma summary_of_long_text_witness :
  (exists r : SummaryResult float,
     generate_summary "one two  three four" 2 = Ok r
     /\ summary r = "one two..."
     /\ split (summary r) = ["one"; "two..."]
     /\ original_length r = 4
     /\ summary_length r = 2
     /\ compression_ratio r = (2 / 4)%float)
  /\ (exists r : SummaryResult Q,
     generate_summary "one two  three four" 2 = Ok r
     /\ (compression_ratio r < 1)%Q).
Proof.
  exact (summary_of_long_text (F:=float) "one two  three four" 2
           ltac:(vm_compute; split; [discriminate | reflexivity])).
Defined.

Lemma slice_to_words {A : Type} (P : A -> Prop) (l : list A) (n : Z) :
  Forall P l -> Forall P (slice_to l n).
Proof. intros Hl. unfold slice_to. destruct (0 <=? n); now apply Forall_firstn_keep. Qed.

(** The number of words of a truncated summary: one per word kept, and one
    for the ellipsis alone when no word is kept. *)
Lemma truncated_summary_length (kept : list string) :
  Forall is_word kept ->
  Z.of_nat (List.length (split (join " " kept ++ "...")))
  = Z.max 1 (Z.of_nat (List.length kept)).
Proof.
  intros Hk. destruct kept as [|w kept]; [reflexivity|].
  rewrite split_join_tail_length; [|assumption|discriminate|reflexivity].
  cbn [List.length]. lia.
Qed.

(** X6.  With a threshold of 0 or less and a text that has a word, the
    summary is still not empty.  The slice [words[:max_length]] keeps no
    word for 0 and all but the last [-max_length] words for a negative
    threshold; the ellipsis counts as a word when nothing is kept, so the
    summary has [max(1, words kept)] words, more than the threshold. *)
Theorem summary_with_nonpositive_threshold {F : Type} `{PyFloat F}
    (text : string) (max_length : Z) :
  let words := split text in
  let W := Z.of_nat (List.length words) in
  let kept :=
    firstn (if max_length =? 0 then 0%nat else Z.to_nat (W + max_length)) words in
  1 <= W -> max_length <= 0 ->
  exists r : SummaryResult F,
    generate_summary text max_length = Ok r
    /\ summary r = (join " " kept ++ "...")%string
    /\ original_length r = W
    /\ summary_length r = Z.max 1 (Z.of_nat (List.length kept))
    /\ max_length < summary_length r
    /\ (W + max_length <= 0 -> summary r = "..." /\ summary_length r = 1).
Proof.
  intros words W kept HW Hmax.
  assert (slice_to words max_length = kept) as Hslice.
  { unfold slice_to, kept. destruct (Z.eqb_spec max_length 0) as [->|Hne].
    - reflexivity.
    - assert ((0 <=? max_length) = false) as -> by (apply Z.leb_gt; lia).
      reflexivity. }
  assert (Forall is_word kept) as Hkept
    by (apply Forall_firstn_keep, split_words).
  unfold generate_summary, true_div. fold words W. rewrite Hslice.
  assert ((W <=? max_length) = false) as -> by (apply Z.leb_gt; lia).
  assert ((W =? 0) = false) as -> by (apply Z.eqb_neq; lia).
  rewrite truncated_summary_length by assumption.
  eexists. split; [reflexivity|].
  cbn [summary original_length summary_length].
  split; [reflexivity|]. split; [reflexivity|]. split; [reflexivity|].
  split; [lia|]. intros Hnone.
  assert (kept = []) as ->; [|split; reflexivity].
  unfold kept. destruct (max_length =? 0); [reflexivity|].
  replace (Z.to_nat (W + max_length)) with 0%nat by lia. reflexivity.
Qed.

Lemma summary_with_nonpositive_threshold_witness :
  (exists r : SummaryResult float,
     generate_summary "one two three" 0 = Ok r
     /\ summary r = "..."
     /\ summary_length r = 1)
  /\ (exists r : SummaryResult float,
     generate_summary "one two three" (-1) = Ok r
     /\ summary r = "one two..."
     /\ summary_length r = 2).
Proof.
  split.
  - destruct (summary_with_nonpositive_threshold (F:=float) "one two three" 0
                ltac:(vm_compute; discriminate) ltac:(lia))
      as (r & Hr & Hs & _ & Hl & _).
    exists r. split; [exact Hr|]. split; [exact Hs | exact Hl].
  - destruct (summary_with_nonpositive_threshold (F:=float) "one two three" (-1)
                ltac:(vm_compute; discriminate) ltac:(lia))
      as (r & Hr & Hs & _ & Hl & _).
    exists r. split; [exact Hr|]. split; [exact Hs | exact Hl].
Defined.

(** X7.  Summarising is idempotent on texts that have a word: with a
    threshold of at least 1, the summary of a summary is that summary, and
    the second call sees as many words as the first one reported. *)
Theorem summary_is_idempotent {F : Type} `{PyFloat F}
    (text : string) (max_length : Z) :
  1 <= Z.of_nat (List.length (split text)) ->
  1 <= max_length ->
  exists r r' : SummaryResult F,
    generate_summary text max_length = Ok r
    /\ generate_summary (summary r) max_length = Ok r'
    /\ summary r' = summary r
    /\ original_length r' = summary_length r
    /\ summary_length r' = summary_length r.
Proof.
  intros HW Hmax.
  destruct (Z.le_gt_cases (Z.of_nat (List.length (split text))) max_length)
    as [Hle|Hgt].
  - pose proof (generate_summary_short (F:=F) text max_length (conj HW Hle)) as Hr.
    eexists _, _. split; [exact Hr|]. cbn [summary summary_length].
    split; [exact Hr|]. repeat split.
  - pose proof (generate_summary_long (F:=F) text max_length
                  (conj Hmax Hgt)) as Hr.
    assert (Z.of_nat (List.length
              (split (join " " (firstn (Z.to_nat max_length) (split text)) ++ "...")))
            = max_length) as Hlen.
    { rewrite truncated_summary_length by (apply Forall_firstn_keep, split_words).
      rewrite length_firstn. lia. }
    eexists _, _. split; [exact Hr|]. cbn [summary summary_length].
    split; [apply generate_summary_short; rewrite Hlen; lia|].
    cbn [summary original_length summary_length]. rewrite Hlen. repeat split.
Qed.

Lemma summary_is_idempotent_witness :
  exists r r' : SummaryResult float,
    generate_summary "one two  three four" 2 = Ok r
    /\ generate_summary (summary r) 2 = Ok r'
    /\ summary r' = summary r
    /\ original_length r' = summary_length r
    /\ summary_length r' = summary_length r.
Proof.
  exact (summary_is_idempotent (F:=float) "one two  three four" 2
           ltac:(vm_compute; discriminate) ltac:(lia)).
Defined.

End SummaryMore.

(** ** Keywords, beyond the ranking *)

Section KeywordMore.

Import PyStr.

Lemma In_slice_to {A : Type} (l : list A) (n : Z) (x : A) :
  In x (slice_to l n) -> In x l.
Proof. unfold slice_to. destruct (0 <=? n); apply In_firstn_in. Qed.

Lemma count_occ_positive (l : list string) (w : string) :
  In w l -> (1 <= count_occ string_dec l w)%nat.
Proof. intros Hin. apply (count_occ_In string_dec) in Hin. lia. Qed.

(** X8.  For a text of code points below 256 and whatever the limit, every
    keyword returned is the lowering of a token of the text as it was
    given: lowering leaves it unchanged, it holds no whitespace, and its
    frequency, at least 1, is the number of tokens of the text that lower
    to it. *)
Theorem keywords_are_lowered_tokens (text : string) (max_keywords : Z)
    (r : KeywordsResult) (w : string) (f : Z) :
  extract_keywords text max_keywords = Ok r ->
  In (w, f) (frequencies r) ->
  lower w = w
  /\ is_word w
  /\ (exists t, In t (split text) /\ lower t = w)
  /\ f = Z.of_nat (count_occ string_dec (map lower (split text)) w)
  /\ 1 <= f.
Proof.
  unfold extract_keywords. intros [= <-]. cbn [frequencies]. intros Hwf.
  apply In_slice_to in Hwf.
  apply (Permutation_in _ (sorted_desc_perm _)) in Hwf.
  destruct (counted_all (split (lower text))) as (_ & Hkeys & Hcnt).
  pose proof (Hcnt w f Hwf) as Hf.
  apply (in_map fst) in Hwf. apply Hkeys in Hwf as [Hin _]. cbn [fst] in Hin.
  pose proof (count_occ_positive _ _ Hin) as Hpos.
  rewrite split_lower in Hin, Hf, Hpos.
  pose proof Hin as Hin'. apply in_map_iff in Hin' as (t & Ht & Hint).
  split; [subst w; apply lower_idem|].
  split.
  { rewrite <- split_lower in Hin.
    pose proof (split_words (lower text)) as Hall.
    rewrite Forall_forall in Hall. now apply Hall. }
  split; [now exists t|]. split; [exact Hf | lia].
Qed.

Lemma keywords_are_lowered_tokens_witness :
  lower "python" = "python"
  /\ is_word "python"
  /\ (exists t, In t (split "Python beats PYTHON and Go") /\ lower t = "python")
  /\ 2 = Z.of_nat (count_occ string_dec
                     (map lower (split "Python beats PYTHON and Go")) "python")
  /\ 1 <= 2.
Proof.
  apply (keywords_are_lowered_tokens "Python beats PYTHON and Go" 5
           {| keywords := ["python"; "beats"];
              frequencies := [("python", 2); ("beats", 1)] |}).
  - reflexivity.
  - left. reflexivity.
Defined.

(** X9.  With a limit of at least 1, no keyword is returned exactly when
    the lowered text has no token longer than 3 characters (so for the
    empty text too); nothing is raised. *)
Theorem no_keyword_iff_no_long_token (text : string) (max_keywords : Z) :
  1 <= max_keywords ->
  exists r : KeywordsResult,
    extract_keywords text max_keywords = Ok r
    /\ (keywords r = [] <->
        forall t, In t (split (lower text)) -> len t <= 3).
Proof.
  intros Hmax. unfold extract_keywords, slice_to.
  assert ((0 <=? max_keywords) = true) as -> by (apply Z.leb_le; lia).
  eexists. split; [reflexivity|]. cbn [keywords].
  set (tokens := split (lower text)).
  set (d := fold_left count_word tokens []).
  destruct (counted_all tokens) as (_ & Hkeys & _). fold d in Hkeys.
  pose proof (sorted_desc_perm d) as Hperm.
  destruct (Z.to_nat max_keywords) as [|k] eqn:Hk; [lia|].
  split.
  - intros Hnil t Ht.
    destruct (Z.leb_spec (len t) 3) as [|Hlong]; [assumption|].
    assert (In t (map fst d)) as Hin
      by (apply Hkeys; split; [assumption | apply Z.gtb_gt; lia]).
    apply (Permutation_in _ (Permutation_map fst (Permutation_sym Hperm))) in Hin.
    destruct (sorted_desc d) as [|x s]; [destruct Hin | discriminate].
  - intros Hshort.
    assert (d = []) as Hd.
    { destruct d as [|[w f] d']; [reflexivity|].
      assert (In w (map fst ((w, f) :: d'))) as Hin by now left.
      apply Hkeys in Hin as [Hin Hlong]. apply Z.gtb_gt in Hlong.
      specialize (Hshort w Hin). lia. }
    rewrite Hd. reflexivity.
Qed.

Lemma no_keyword_iff_no_long_token_witness :
  exists r : KeywordsResult,
    extract_keywords "to be or not to be" 5 = Ok r
    /\ (keywords r = [] <->
        forall t, In t (split (lower "to be or not to be")) -> len t <= 3).
Proof. apply no_keyword_iff_no_long_token. lia. Defined.

(** X10.  A smaller limit gives a prefix of what a larger limit gives: for
    [0 <= m <= m'] the keywords and frequencies returned for [m] are the
    first [m] of those returned for [m']. *)
Theorem keywords_of_smaller_limit_are_prefix (text : string) (m m' : Z) :
  0 <= m <= m' ->
  exists r r' : KeywordsResult,
    extract_keywords text m = Ok r
    /\ extract_keywords text m' = Ok r'
    /\ frequencies r = firstn (Z.to_nat m) (frequencies r')
    /\ keywords r = firstn (Z.to_nat m) (keywords r').
Proof.
  intros Hm. unfold extract_keywords, slice_to.
  assert ((0 <=? m) = true) as -> by (apply Z.leb_le; lia).
  assert ((0 <=? m') = true) as -> by (apply Z.leb_le; lia).
  eexists _, _. split; [reflexivity|]. split; [reflexivity|].
  cbn [keywords frequencies].
  assert (forall A (l : list A),
            firstn (Z.to_nat m) l
            = firstn (Z.to_nat m) (firstn (Z.to_nat m') l)) as Hpre.
  { intros A l. rewrite firstn_firstn. f_equal. lia. }
  split; [apply Hpre|]. rewrite firstn_map. f_equal. apply Hpre.
Qed.

Lemma keywords_of_smaller_limit_are_prefix_witness :
  exists r r' : KeywordsResult,
    extract_keywords "alpha beta beta gamma gamma gamma" 1 = Ok r
    /\ extract_keywords "alpha beta beta gamma gamma gamma" 5 = Ok r'
    /\ frequencies r = firstn 1 (frequencies r')
    /\ keywords r = firstn 1 (keywords r').
Proof.
  exact (keywords_of_smaller_limit_are_prefix
           "alpha beta beta gamma gamma gamma" 1 5 ltac:(lia)).
Defined.

(** X11.  A negative limit is not refused: the slice drops the last
    [-max_keywords] entries of the full ranking (the one a limit as large
    as the number of tokens returns) and keeps the rest, which is nothing
    when the full ranking has no more than [-max_keywords] entries. *)
Theorem keywords_with_negative_limit (text : string) (max_keywords : Z) :
  max_keywords < 0 ->
  exists full r : KeywordsResult,
    extract_keywords text (Z.of_nat (List.length (split (lower text)))) = Ok full
    /\ extract_keywords text max_keywords = Ok r
    /\ frequencies r
       = firstn (List.length (frequencies full) - Z.to_nat (- max_keywords))
           (frequencies full)
    /\ Z.of_nat (List.length (keywords r))
       = Z.max 0 (Z.of_nat (List.length (keywords full)) + max_keywords)
    /\ (Z.of_nat (List.length (keywords full)) + max_keywords <= 0 ->
        keywords r = []).
Proof.
  intros Hneg. unfold extract_keywords, slice_to.
  assert ((0 <=? max_keywords) = false) as -> by (apply Z.leb_gt; lia).
  assert ((0 <=? Z.of_nat (List.length (split (lower text)))) = true) as ->
    by (apply Z.leb_le; lia).
  set (tokens := split (lower text)).
  set (d := fold_left count_word tokens []).
  pose proof (counted_all tokens) as Hd. fold d in Hd.
  pose proof (counted_NoDup tokens d Hd) as Hnd.
  destruct Hd as (_ & Hkeys & _).
  assert (List.length (sorted_desc d) <= List.length tokens)%nat as Hlen.
  { rewrite (Permutation_length (sorted_desc_perm d)), <- (length_map fst d).
    apply NoDup_incl_length; [assumption|]. intros w Hw. now apply Hkeys. }
  rewrite Nat2Z.id, (firstn_all2 (sorted_desc d) Hlen).
  eexists _, _. split; [reflexivity|]. split; [reflexivity|].
  cbn [keywords frequencies]. split; [|split].
  - f_equal. lia.
  - rewrite !length_map, length_firstn. lia.
  - rewrite length_map. intros Hfew.
    replace (Z.to_nat (Z.of_nat (List.length (sorted_desc d)) + max_keywords))
      with 0%nat by lia.
    reflexivity.
Qed.

Lemma keywords_with_negative_limit_witness :
  exists full r : KeywordsResult,
    extract_keywords "alpha beta beta gamma gamma gamma" 6 = Ok full
    /\ extract_keywords "alpha beta beta gamma gamma gamma" (-1) = Ok r
    /\ frequencies r = [("gamma", 3); ("beta", 2)]
    /\ Z.of_nat (List.length (keywords r)) = 2.
Proof.
  destruct (keywords_with_negative_limit
              "alpha beta beta gamma gamma gamma" (-1) ltac:(lia))
    as (full & r & Hfull & Hr & Hfreq & Hlen & _).
  exists full, r. split; [exact Hfull|]. split; [exact Hr|].
  vm_compute in Hfull. injection Hfull as <-.
  split; [exact Hfreq | exact Hlen].
Defined.

End KeywordMore.

(** ** The endpoints and the world *)

Section EndpointMore.

Import PyStr.

(** Split an endpoint into its two outcomes: the [try] block returned, or it
    raised. *)
Ltac by_outcome :=
  cbn [utcnow];
  match goal with
  | |- context [match ?body with Ok _ => _ | Raise _ => _ end] =>
      destruct body
  end;
  unfold completed, failed, logger_error; cbn.

(** X12.  Every envelope the three analysis endpoints return is well formed:
    it is completed with a result and a processing time and no error, or it
    is failed with an error message and no result, no confidence and no
    processing time.  No envelope carries both a result and an error. *)
Theorem envelopes_are_well_formed {F : Type} `{PyFloat F} (w : World) :
  (forall request, well_formed (fst (analyze_text (F:=F) request w)))
  /\ (forall request, well_formed (fst (analyze_image (F:=F) request w)))
  /\ (forall request, well_formed (fst (ml_prediction (F:=F) request w))).
Proof.
  split; [|split]; intros request.
  - unfold analyze_text, well_formed. by_outcome.
    + left. repeat split; discriminate.
    + right. repeat split; discriminate.
  - unfold analyze_image, well_formed. by_outcome.
    + left. repeat split; discriminate.
    + right. repeat split; discriminate.
  - unfold ml_prediction, well_formed. by_outcome.
    + left. repeat split; discriminate.
    + right. repeat split; discriminate.
Qed.

(** X13.  A sentiment request and a keywords request complete for every
    text, the empty one included; a summary request completes exactly when
    the text has at least one word. *)
Theorem text_analysis_completion {F : Type} `{PyFloat F}
    (request : TextAnalysisRequest) (w : World) :
  let resp := fst (analyze_text (F:=F) request w) in
  (text_analysis_type request = "sentiment" -> status resp = "completed")
  /\ (text_analysis_type request = "keywords" -> status resp = "completed")
  /\ (text_analysis_type request = "summary" ->
      (status resp = "completed" <-> split (text request) <> [])).
Proof.
  cbv zeta. split; [|split]; intros Hsel.
  - exact (proj1 (analyze_text_sentiment request w _ Hsel
                    (analyze_sentiment_unfold (text request)))).
  - exact (proj1 (analyze_text_keywords request w _ Hsel eq_refl)).
  - destruct (split (text request)) as [|t ts] eqn:Hsplit.
    + assert (all_space (text request) = true) as Hs by now apply split_nil_iff.
      rewrite (analyze_text_summary_raises request w _ Hsel
                 (generate_summary_no_word (text request) 100 Hs)).
      cbn [failed_envelope status]. split; [discriminate | congruence].
    + split; [discriminate | intros _].
      assert (1 <= Z.of_nat (List.length (split (text request)))) as HW
        by (rewrite Hsplit; cbn [List.length]; lia).
      destruct (Z.le_gt_cases (Z.of_nat (List.length (split (text request)))) 100)
        as [Hle|Hgt].
      * exact (proj1 (analyze_text_summary request w _ Hsel
                        (generate_summary_short (text request) 100 (conj HW Hle)))).
      * assert (1 <= 100 < Z.of_nat (List.length (split (text request))))
          as Hlong by lia.
        exact (proj1 (analyze_text_summary request w _ Hsel
                        (generate_summary_long (text request) 100 Hlong))).
Qed.

Lemma sentiment_confidence_in_table (text : string) (r : SentimentResult float) :
  analyze_sentiment text = Ok r ->
  In (sentiment_confidence r) [0.6%float; 0.7%float; 0.8%float; 0.9%float].
Proof.
  rewrite analyze_sentiment_unfold. intros [= <-]. cbn [sentiment_confidence].
  pose proof (count_present_bounds positive_words (lower text)) as Bp.
  pose proof (count_present_bounds negative_words (lower text)) as Bq.
  cbn [positive_words negative_words List.length] in Bp, Bq.
  set (p := count_present positive_words (lower text)) in *.
  set (q := count_present negative_words (lower text)) in *.
  destruct (p >? q) eqn:Hpq.
  - apply Z.gtb_lt in Hpq. rewrite decision_confidence by lia.
    apply decision_confidence_values. lia.
  - destruct (q >? p) eqn:Hqp.
    + apply Z.gtb_lt in Hqp. rewrite decision_confidence by lia.
      apply decision_confidence_values. lia.
    + left. reflexivity.
Qed.

(** X14.  The envelope of a text analysis carries a confidence exactly when
    the analysis is [sentiment]: the result maps of [keywords] and [summary]
    have no [confidence] key, and a failed envelope has none.  When present
    it is the confidence of the sentiment result, one of 0.6, 0.7, 0.8 and
    0.9 in double precision. *)
Theorem text_confidence_only_for_sentiment
    (request : TextAnalysisRequest) (w : World) :
  let resp := fst (analyze_text (F:=float) request w) in
  (confidence resp <> None <-> text_analysis_type request = "sentiment")
  /\ (forall c, confidence resp = Some c ->
        In c [0.6%float; 0.7%float; 0.8%float; 0.9%float]
        /\ exists r, result resp = Some (RSentiment r)
                     /\ sentiment_confidence r = c).
Proof.
  cbv zeta.
  destruct (string_dec (text_analysis_type request) "sentiment") as [Hs|Hs].
  - pose proof (analyze_sentiment_unfold (F:=float) (text request)) as Hr.
    destruct (analyze_text_sentiment request w _ Hs Hr) as (_ & Hres & Hc & _).
    rewrite Hc, Hres. split; [split; [auto | discriminate]|].
    intros c [= <-]. split; [now apply (sentiment_confidence_in_table _ _ Hr)|].
    eexists. split; reflexivity.
  - assert (confidence (fst (analyze_text (F:=float) request w)) = None) as ->.
    { destruct (string_dec (text_analysis_type request) "keywords") as [Hk|Hk];
        [exact (proj1 (proj2 (proj2
                  (analyze_text_keywords request w _ Hk eq_refl))))|].
      destruct (string_dec (text_analysis_type request) "summary") as [Hm|Hm].
      - destruct (generate_summary (F:=float) (text request) 100) as [r|e] eqn:Hr.
        + exact (proj1 (proj2 (proj2 (analyze_text_summary request w r Hm Hr)))).
        + now rewrite (analyze_text_summary_raises request w e Hm Hr).
      - rewrite analyze_text_unsupported; [reflexivity|].
        simpl. intuition congruence. }
    split; [split; [congruence | contradiction] | discriminate].
Qed.

Lemma handle_effects {F : Type} `{PyFloat F} (request : Request) (w : World) :
  let reply := fst (handle (F:=F) request w) in
  let w' := snd (handle (F:=F) request w) in
  clock w' = clock w
  /\ (ticks w <= ticks w' <= ticks w + 3)%nat
  /\ exists lines,
       logged w' = (logged w ++ lines)%list
       /\ List.length lines = if is_failed reply then 1%nat else 0%nat.
Proof.
  cbv zeta. destruct request as [|r|r|r|]; unfold handle.
  - cbn. split; [reflexivity|]. split; [lia|].
    exists []. now rewrite app_nil_r.
  - unfold analyze_text. by_outcome; (split; [reflexivity|]); (split; [lia|]).
    + exists []. now rewrite app_nil_r.
    + eexists [_]. split; reflexivity.
  - unfold analyze_image. by_outcome; (split; [reflexivity|]); (split; [lia|]).
    + exists []. now rewrite app_nil_r.
    + eexists [_]. split; reflexivity.
  - unfold ml_prediction. by_outcome; (split; [reflexivity|]); (split; [lia|]).
    + exists []. now rewrite app_nil_r.
    + eexists [_]. split; reflexivity.
  - cbn. split; [reflexivity|]. split; [lia|].
    exists []. now rewrite app_nil_r.
Qed.

(** X15.  Serving any list of requests gives one reply per request, never
    changes the clock function, reads the clock at most three times per
    request, keeps every line already logged and appends exactly one line
    per failed envelope: a request that completes, a health check and a
    model listing log nothing. *)
Theorem serve_effects {F : Type} `{PyFloat F} (requests : list Request) (w : World) :
  let replies := fst (serve (F:=F) requests w) in
  let w' := snd (serve (F:=F) requests w) in
  List.length replies = List.length requests
  /\ clock w' = clock w
  /\ (ticks w <= ticks w' <= ticks w + 3 * List.length requests)%nat
  /\ exists lines,
       logged w' = (logged w ++ lines)%list
       /\ List.length lines = List.length (filter is_failed replies).
Proof.
  cbv zeta. revert w. induction requests as [|request requests IH]; intros w.
  - cbn. repeat split; try lia. exists []. now rewrite app_nil_r.
  - cbn [serve]. pose proof (handle_effects request w) as Hh. cbv zeta in Hh.
    destruct (handle request w) as [reply w1]. cbn [fst snd] in Hh.
    destruct Hh as (Hc1 & Ht1 & lines1 & Hl1 & Hn1).
    specialize (IH w1). destruct (serve requests w1) as [replies w2].
    cbn [fst snd] in IH |- *. destruct IH as (Hlen & Hc2 & Ht2 & lines2 & Hl2 & Hn2).
    split; [cbn [List.length]; lia|]. split; [congruence|].
    split; [cbn [List.length]; lia|].
    exists (lines1 ++ lines2)%list. split.
    + now rewrite Hl2, Hl1, app_assoc.
    + rewrite length_app, Hn1, Hn2. cbn [filter].
      destruct (is_failed reply); cbn [List.length]; lia.
Qed.

Lemma endpoint_request_ids {F : Type} `{PyFloat F} (w : World) :
  (forall r, request_id (fst (analyze_text (F:=F) r w))
             = "text_" ++ stamp w (clock w (ticks w)))%string
  /\ (forall r, request_id (fst (analyze_image (F:=F) r w))
             = "image_" ++ stamp w (clock w (ticks w)))%string
  /\ (forall r, request_id (fst (ml_prediction (F:=F) r w))
             = "ml_" ++ stamp w (clock w (ticks w)))%string.
Proof.
  split; [|split]; intros r.
  - unfold analyze_text. by_outcome; reflexivity.
  - unfold analyze_image. by_outcome; reflexivity.
  - unfold ml_prediction. by_outcome; reflexivity.
Qed.

(** X16.  A request id is the prefix of the endpoint followed by the printed
    timestamp of the clock reading at arrival, and nothing else: two text
    requests get the same id exactly when their arrival readings print the
    same, whatever they ask and whether they complete or fail, and ids of
    different endpoints never coincide. *)
Theorem request_ids_come_from_the_clock {F : Type} `{PyFloat F}
    (w1 w2 : World) :
  (forall r1 r2 : TextAnalysisRequest,
     request_id (fst (analyze_text (F:=F) r1 w1))
     = request_id (fst (analyze_text (F:=F) r2 w2))
     <-> stamp w1 (clock w1 (ticks w1)) = stamp w2 (clock w2 (ticks w2)))
  /\ (forall (r1 : TextAnalysisRequest) (r2 : ImageAnalysisRequest),
     request_id (fst (analyze_text (F:=F) r1 w1))
     <> request_id (fst (analyze_image (F:=F) r2 w2)))
  /\ (forall (r1 : TextAnalysisRequest) (r2 : MLModelRequest),
     request_id (fst (analyze_text (F:=F) r1 w1))
     <> request_id (fst (ml_prediction (F:=F) r2 w2)))
  /\ (forall (r1 : ImageAnalysisRequest) (r2 : MLModelRequest),
     request_id (fst (analyze_image (F:=F) r1 w1))
     <> request_id (fst (ml_prediction (F:=F) r2 w2))).
Proof.
  destruct (endpoint_request_ids (F:=F) w1) as (Ht1 & Hi1 & _).
  destruct (endpoint_request_ids (F:=F) w2) as (Ht2 & Hi2 & Hm2).
  split; [|split; [|split]]; intros r1 r2.
  - rewrite Ht1, Ht2. split; [intros [= ?] | intros ->]; auto.
  - rewrite Ht1, Hi2. discriminate.
  - rewrite Ht1, Hm2. discriminate.
  - rewrite Hi1, Hm2. discriminate.
Qed.

(** X17.  The processing time of a completed envelope is the third clock
    reading of the request minus the second; it is never negative when the
    clock does not run backwards. *)
Theorem processing_time_is_not_negative {F : Type} `{PyFloat F}
    (request : Request) (w : World) (a : AnalysisResponse F) (t : Z) :
  (forall n, clock w n <= clock w (S n)) ->
  fst (handle request w) = AnalysisReply a ->
  processing_time a = Some t ->
  t = clock w (S (S (ticks w))) - clock w (S (ticks w)) /\ 0 <= t.
Proof.
  intros Hmono Hreply Ht.
  assert (t = clock w (S (S (ticks w))) - clock w (S (ticks w))) as ->.
  { destruct request as [|r|r|r|]; unfold handle in Hreply.
    - discriminate.
    - unfold analyze_text in Hreply. revert Hreply. by_outcome;
        intros [= <-]; cbn in Ht; congruence.
    - unfold analyze_image in Hreply. revert Hreply. by_outcome;
        intros [= <-]; cbn in Ht; congruence.
    - unfold ml_prediction in Hreply. revert Hreply. by_outcome;
        intros [= <-]; cbn in Ht; congruence.
    - discriminate. }
  split; [reflexivity|]. specialize (Hmono (S (ticks w))). lia.
Qed.

Lemma processing_time_is_not_negative_witness :
  700 = 1700 - 1000 /\ 0 <= 700.
Proof.
  apply (processing_time_is_not_negative (F:=float)
           (PostPredict {| model_name := "regression";
                           input_data := []; parameters := None |})
           {| clock := fun n => Z.of_nat n * 700 + 300; ticks := 0; logged := [];
                 stamp := PyStr.str_of_int |}
           {| request_id := "ml_300";
              status := "completed";
              result := Some (RRegression
                                {| regression_prediction := 42.5%float;
                                   feature_importance := [("feature1", 0.3%float);
                                                          ("feature2", 0.25%float);
                                                          ("feature3", 0.45%float)] |});
              confidence := Some 0.8%float;
              processing_time := Some 700;
              error := None |}).
  - intros n. cbn [clock]. lia.
  - reflexivity.
  - reflexivity.
Defined.

(** X19.  What a failed request logs is what it returns: the one line
    appended to the log is "Error processing", the kind of analysis, a
    colon and the very message the envelope carries in [error]. *)
Theorem failure_is_logged_as_reported {F : Type} `{PyFloat F}
    (request : Request) (w : World) (a : AnalysisResponse F) :
  fst (handle request w) = AnalysisReply a ->
  status a = "failed" ->
  exists what message,
    In what ["text analysis"; "image analysis"; "ML prediction"]
    /\ error a = Some message
    /\ logged (snd (handle (F:=F) request w))
       = (logged w ++ ["Error processing " ++ what ++ ": " ++ message]%string)%list.
Proof.
  destruct request as [|r|r|r|]; unfold handle.
  - discriminate.
  - unfold analyze_text. by_outcome; intros [= <-]; [discriminate|]. intros _.
    exists "text analysis". eexists. split; [simpl; tauto|]. split; reflexivity.
  - unfold analyze_image. by_outcome; intros [= <-]; [discriminate|]. intros _.
    exists "image analysis". eexists. split; [simpl; tauto|]. split; reflexivity.
  - unfold ml_prediction. by_outcome; intros [= <-]; [discriminate|]. intros _.
    exists "ML prediction". eexists. split; [simpl; tauto|]. split; reflexivity.
  - discriminate.
Qed.

Lemma failure_is_logged_as_reported_witness :
  exists what message,
    In what ["text analysis"; "image analysis"; "ML prediction"]
    /\ Some "400: Unknown model: gpt" = Some message
    /\ ["Error processing ML prediction: 400: Unknown model: gpt"]
       = ([] ++ ["Error processing " ++ what ++ ": " ++ message]%string)%list.
Proof.
  apply (failure_is_logged_as_reported (F:=float)
           (PostPredict {| model_name := "gpt"; input_data := []; parameters := None |})
           {| clock := fun n => Z.of_nat n; ticks := 0; logged := [];
                 stamp := PyStr.str_of_int |}
           {| request_id := "ml_0";
              status := "failed";
              result := None;
              confidence := None;
              processing_time := None;
              error := Some "400: Unknown model: gpt" |});
    reflexivity.
Defined.

End EndpointMore.
